(** * Tool-augmented streaming chat turn of SparrowAI (src-tauri/src/chat.rs)

    Shallow embedding of [extract_all_tool_calls_from_xml],
    [has_incomplete_tool_call], [check_if_continuation_needed],
    [get_conversation_history], [chat_with_loaded_model_streaming] and
    [continue_conversation_after_tools].

    Rust [String]/[&str] values are modelled as their UTF-8 byte sequences,
    [list ascii] (one [ascii] per byte), so byte offsets returned by
    [str::find] are list indices and [&text[a..b]] is [firstn]/[skipn].
    The [serde_json] reader and writer, a library outside the repository,
    are a parameter of the model (the class [SerdeJson]). *)

From Stdlib Require Import List Ascii String Bool Arith ZArith NArith Lia.
Import ListNotations.

Local Set Warnings "-register-all".

Definition text := list ascii.

(** String literals of the source. *)
Definition lit (x : string) : text := list_ascii_of_string x.

Definition chr_eqb (a b : ascii) : bool := Ascii.eqb a b.

(** The double-quote byte. *)
Definition dq : ascii := ascii_of_nat 34.

(** Literals containing JSON: an apostrophe stands for a double quote. *)
Definition qlit (x : string) : text :=
  map (fun c => if chr_eqb c "'" then dq else c) (list_ascii_of_string x).

(** ** Byte-string search, as [str::starts_with], [str::find], [str::rfind]
    and [str::contains]. *)

Fixpoint starts_with (p t : text) : bool :=
  match p, t with
  | [], _ => true
  | a :: p', b :: t' => chr_eqb a b && starts_with p' t'
  | _ :: _, [] => false
  end.

(** [t.find(p)]: byte offset of the first occurrence of [p] in [t]. *)
Fixpoint find (p t : text) : option nat :=
  if starts_with p t then Some 0
  else match t with
       | [] => None
       | _ :: t' => option_map S (find p t')
       end.

(** [t.rfind(p)]: byte offset of the last occurrence of [p] in [t]. *)
Fixpoint rfind (p t : text) : option nat :=
  match t with
  | [] => if starts_with p [] then Some 0 else None
  | _ :: t' =>
      match rfind p t' with
      | Some i => Some (S i)
      | None => if starts_with p t then Some 0 else None
      end
  end.

Definition contains (p t : text) : bool :=
  match find p t with Some _ => true | None => false end.

(** [&t[a..b]] *)
Definition slice (a b : nat) (t : text) : text := firstn (b - a) (skipn a t).

(** ** [serde_json::Value] and the [serde_json] functions the code calls.

    [serde_json] is a library outside the repository: its reader and its
    writer enter the model as the class [SerdeJson], and every statement
    below about the scanner or the turn holds for any instance of it.
    Objects are the default [serde_json::Map]; numbers are
    [serde_json::Number], represented by a text the instance chooses. *)
Inductive json : Type :=
| JNull
| JBool (b : bool)
| JNumber (n : text)
| JString (v : text)
| JArray (xs : list json)
| JObject (m : list (text * json)).

Fixpoint text_eqb (a b : text) : bool :=
  match a, b with
  | [], [] => true
  | x :: a', y :: b' => chr_eqb x y && text_eqb a' b'
  | _, _ => false
  end.

Fixpoint map_get (k : text) (m : list (text * json)) : option json :=
  match m with
  | [] => None
  | (k', v) :: m' => if text_eqb k k' then Some v else map_get k m'
  end.

(** [Value::get(key)]: only objects have fields. *)
Definition value_get (v : json) (k : text) : option json :=
  match v with JObject m => map_get k m | _ => None end.

Definition as_str (v : json) : option text :=
  match v with JString s => Some s | _ => None end.

Definition as_object (v : json) : option (list (text * json)) :=
  match v with JObject m => Some m | _ => None end.

Definition is_null (v : json) : bool :=
  match v with JNull => true | _ => false end.

(** [serde_json::from_str::<serde_json::Value>] ([None] is an [Err]), and
    [serde_json::to_string(args_obj).unwrap_or_default()] on a
    [Map<String, Value>]. *)
Class SerdeJson := {
  from_str : text -> option json;
  to_string : list (text * json) -> text
}.

Fixpoint join (sep : text) (xs : list text) : text :=
  match xs with
  | [] => []
  | [x] => x
  | x :: xs' => x ++ sep ++ join sep xs'
  end.

(** ** Tag scanner *)

Definition open_tag : text := lit "<tool_call>".
Definition close_tag : text := lit "</tool_call>".

Section Scanner.

Context `{serde : SerdeJson}.

(** The body of one [<tool_call>] region: the JSON value must have a string
    [name] and an object [arguments]; the arguments are re-serialised with
    [serde_json::to_string(args_obj).unwrap_or_default()]. *)
Definition tool_call_of (tool_call_content : text) : option (text * text) :=
  match from_str tool_call_content with
  | Some parsed =>
      match value_get parsed (lit "name"), value_get parsed (lit "arguments") with
      | Some name, Some args =>
          match as_str name, as_object args with
          | Some name_str, Some args_obj => Some (name_str, to_string args_obj)
          | _, _ => None
          end
      | _, _ => None
      end
  | None => None
  end.

(** The [while let] loop of [extract_all_tool_calls_from_xml], one
    iteration per unit of fuel.  [search_start] only grows (by at least 12),
    so [S (length text)] units always reach the loop exit. *)
Fixpoint extract_loop (fuel : nat) (text : text) (search_start : nat)
  : list (list ascii * list ascii) :=
  match fuel with
  | 0 => []
  | S fuel' =>
      match find open_tag (skipn search_start text) with
      | None => []
      | Some start =>
          let actual_start := search_start + start in
          match find close_tag (skipn actual_start text) with
          | None => []
          | Some end_ =>
              let actual_end := actual_start + end_ in
              let tool_call_content := slice (actual_start + 11) actual_end text in
              let rest := extract_loop fuel' text (actual_end + 12) in
              match tool_call_of tool_call_content with
              | Some call => call :: rest
              | None => rest
              end
          end
      end
  end.

Definition extract_all_tool_calls_from_xml (text : text) : list (list ascii * list ascii) :=
  extract_loop (S (List.length text)) text 0.

End Scanner.

Definition has_incomplete_tool_call (text : text) : bool :=
  match rfind open_tag text with
  | Some start =>
      match find close_tag (skipn start text) with
      | Some _ => false
      | None => true
      end
  | None => false
  end.

Definition check_if_continuation_needed (text : text) : bool :=
  contains (lit "<tool_response>") text.

(** ** Data of a turn *)

Inductive result (A E : Type) : Type :=
| Ok (a : A)
| Err (e : E).
Arguments Ok {A E} a.
Arguments Err {A E} e.

Definition nl : ascii := ascii_of_nat 10.

(** [ChatMessage] of the session store ([tokens_per_second], an [f64], is
    not modelled). *)
Record ChatMessage := {
  msg_id : text;
  role : text;
  content : text;
  timestamp : Z;
  is_error : option bool
}.

(** [ChatCompletionRequestMessage], for the three roles the code builds. *)
Inductive req_message : Type :=
| SystemMsg (content : text)
| UserMsg (content : text)
| AssistantMsg (content : text).

(** [CreateChatCompletionRequest] as built by the code; [temperature] and
    [top_p] are floats and are not modelled. *)
Record request := {
  req_model : text;
  req_messages : list req_message;
  req_stream : bool;
  req_seed : option Z;
  req_max_tokens : N;
  req_max_completion_tokens : option N
}.

(** One [ChatChoiceStream] of a streamed response chunk. *)
Record choice := {
  delta_content : option text;
  finish_reason : option text
}.

(** A response chunk carries its [choices]; the stream yields [Ok] chunks or
    transport errors. *)
Definition chunk := list choice.
Definition stream_item := result chunk text.

(** Events pushed to the frontend with [app.emit]. *)
Inductive event : Type :=
| ChatToken (token : text) (finished : bool)
| ToolCallEvent (tool_name arguments result : text)
| ChatErrorEvent (error : text).

(** [Option::unwrap_or] *)
Definition unwrap_or {A} (o : option A) (d : A) : A :=
  match o with Some a => a | None => d end.

(** [u32::max] *)
Definition effective_max_tokens (max_tokens : option N) : N :=
  N.max (unwrap_or max_tokens 1000%N) 100%N.

(** ** UTF-8 characters, as [str::chars] sees them in a valid string *)

(** The length of the character a leading byte starts. *)
Definition utf8_char_len (b : ascii) : nat :=
  let n := nat_of_ascii b in
  if n <? 128 then 1 else if n <? 224 then 2 else if n <? 240 then 3 else 4.

Definition byte_z (b : ascii) : Z := Z.of_nat (nat_of_ascii b).

(** The code point of one character's bytes. *)
Definition decode_char (bs : text) : Z :=
  match bs with
  | [b0] => byte_z b0
  | [b0; b1] => Z.lor (Z.shiftl (Z.land (byte_z b0) 31) 6) (Z.land (byte_z b1) 63)
  | [b0; b1; b2] =>
      Z.lor (Z.shiftl (Z.land (byte_z b0) 15) 12)
        (Z.lor (Z.shiftl (Z.land (byte_z b1) 63) 6) (Z.land (byte_z b2) 63))
  | [b0; b1; b2; b3] =>
      Z.lor (Z.shiftl (Z.land (byte_z b0) 7) 18)
        (Z.lor (Z.shiftl (Z.land (byte_z b1) 63) 12)
           (Z.lor (Z.shiftl (Z.land (byte_z b2) 63) 6) (Z.land (byte_z b3) 63)))
  | _ => 0%Z
  end.

Definition z_byte (z : Z) : ascii := ascii_of_nat (Z.to_nat z).

(** [char::encode_utf8] *)
Definition encode_utf8 (c : Z) : text :=
  if (c <? 128)%Z then [z_byte c]
  else if (c <? 2048)%Z then
    [z_byte (Z.lor 192 (Z.shiftr c 6)); z_byte (Z.lor 128 (Z.land c 63))]
  else if (c <? 65536)%Z then
    [z_byte (Z.lor 224 (Z.shiftr c 12)); z_byte (Z.lor 128 (Z.land (Z.shiftr c 6) 63));
     z_byte (Z.lor 128 (Z.land c 63))]
  else
    [z_byte (Z.lor 240 (Z.shiftr c 18)); z_byte (Z.lor 128 (Z.land (Z.shiftr c 12) 63));
     z_byte (Z.lor 128 (Z.land (Z.shiftr c 6) 63)); z_byte (Z.lor 128 (Z.land c 63))].

Fixpoint utf8_chars (fuel : nat) (t : text) : list text :=
  match fuel with
  | 0 => []
  | S f =>
      match t with
      | [] => []
      | b :: _ => firstn (utf8_char_len b) t :: utf8_chars f (skipn (utf8_char_len b) t)
      end
  end.

(** [t.chars()], each character as its bytes. *)
Definition chars (t : text) : list text := utf8_chars (List.length t) t.

(** [char::is_whitespace]: the Unicode [White_Space] property. *)
Definition char_is_whitespace (c : Z) : bool :=
  (((9 <=? c) && (c <=? 13)) || (c =? 32) || (c =? 133) || (c =? 160) || (c =? 5760)
   || ((8192 <=? c) && (c <=? 8202)) || (c =? 8232) || (c =? 8233) || (c =? 8239)
   || (c =? 8287) || (c =? 12288))%Z.

Fixpoint drop_while {A} (f : A -> bool) (l : list A) : list A :=
  match l with
  | [] => []
  | x :: l' => if f x then drop_while f l' else l
  end.

(** [str::trim] *)
Definition trim (t : text) : text :=
  let ws := fun ch => char_is_whitespace (decode_char ch) in
  List.concat (rev (drop_while ws (rev (drop_while ws (chars t))))).

(** [str::trim().is_empty()]: every character is [White_Space]. *)
Definition trim_is_empty (t : text) : bool :=
  match trim t with [] => true | _ :: _ => false end.

(** The turn state of [chat_with_loaded_model_streaming]: [full_response],
    [executed_tools], [needs_continuation], together with the observable
    effects: the calls handed to [mcp::call_mcp_tool] (name and argument
    text, in order) and the events emitted. *)
Record turn_state := {
  full_response : text;
  executed_tools : list text;
  needs_continuation : bool;
  invoked : list (text * text);
  emitted : list event
}.

Definition init_state : turn_state :=
  {| full_response := []; executed_tools := []; needs_continuation := false;
     invoked := []; emitted := [] |}.

(** The result of one call of [chat_with_loaded_model_streaming]: the value
    returned, the requests sent to the backend, the events, the tool calls. *)
Record turn_outcome := {
  outcome : result text text;
  requests : list request;
  events : list event;
  tool_invocations : list (text * text)
}.

Definition tool_response_text (tool_result : text) : text :=
  [nl] ++ lit "<tool_response>" ++ [nl] ++ tool_result ++ [nl] ++ lit "</tool_response>".

Definition error_response_text (e : text) : text :=
  [nl] ++ lit "<tool_response>" ++ [nl] ++ lit "Error: " ++ e ++ [nl]
  ++ lit "</tool_response>".

Definition continuation_error_text (e : text) : text :=
  [nl; nl] ++ lit "[Continuation Error: " ++ e ++ lit "]".

(** ** The turn *)

Section Turn.

Context `{serde : SerdeJson}.

(** [mcp::call_mcp_tool]: the tool invoker, given the calls made so far in
    the turn (tools may be stateful), the qualified name and the argument
    map with nulls removed. *)
Variable call_mcp_tool :
  list (text * text) -> text -> option (list (text * json)) -> result text text.

(** [client.chat().create_stream(request)]: either a transport failure or
    the finite sequence of stream items. *)
Variable create_stream : request -> result (list stream_item) text.

(** [load_chat_sessions()] followed by the lookup of the session id. *)
Variable load_session : text -> result (list ChatMessage) text.

(** The rendered tool catalogue appended to the system prompt ([tools_info]). *)
Variable tools_info : text.

Definition default_system_prompt : text :=
  lit "You are a helpful AI assistant with access to various functions/tools. 
        You MUST use the available tools when they are relevant to answer the user's request.

        IMPORTANT RULES:
        1. NEVER make up or guess information that could be obtained from a function call
        2. If you have a tool that can answer the question, USE IT

        Available tools should be called whenever relevant to provide accurate, up-to-date information.".

Definition is_user_or_assistant (msg : ChatMessage) : bool :=
  text_eqb msg.(role) (lit "user") || text_eqb msg.(role) (lit "assistant").

Definition get_conversation_history (session_id : text) : result (list ChatMessage) text :=
  match load_session session_id with
  | Ok messages => Ok (filter is_user_or_assistant messages)
  | Err e => Err e
  end.

(** [if let Some(last_msg) = history.last() { ... history.pop() }] *)
Definition drop_duplicate_last (message : text) (history : list ChatMessage)
  : list ChatMessage :=
  match rev history with
  | last_msg :: _ =>
      if text_eqb last_msg.(role) (lit "user") && text_eqb last_msg.(content) message
      then removelast history else history
  | [] => history
  end.

(** [for msg in history { match msg.role.as_str() { ... } }] *)
Definition history_to_request (msg : ChatMessage) : list req_message :=
  if text_eqb msg.(role) (lit "user") then [UserMsg msg.(content)]
  else if text_eqb msg.(role) (lit "assistant") then [AssistantMsg msg.(content)]
  else [].

Definition build_messages (system_message message : text) (session_id : option text)
    (include_history : option bool) : list req_message :=
  [SystemMsg system_message]
  ++ (match session_id with
      | Some sid =>
          if unwrap_or include_history false then
            match get_conversation_history sid with
            | Ok history => flat_map history_to_request (drop_duplicate_last message history)
            | Err _ => []
            end
          else []
      | None => []
      end)
  ++ [UserMsg message].

Definition build_request (model_name : text) (messages : list req_message)
    (seed : option Z) (max_tokens max_completion_tokens : option N) : request :=
  {| req_model := model_name; req_messages := messages; req_stream := true;
     req_seed := seed; req_max_tokens := effective_max_tokens max_tokens;
     req_max_completion_tokens := max_completion_tokens |}.

(** [serde_json::from_str::<Map<String, Value>>(&fn_args)], which reads
    what [from_str::<Value>] reads and accepts it when it is an object, then
    [map.retain(|_k, v| !v.is_null())]; a parse failure gives [None]. *)
Definition args_map_of (fn_args : text) : option (list (text * json)) :=
  match from_str fn_args with
  | Some (JObject map) => Some (filter (fun kv => negb (is_null (snd kv))) map)
  | _ => None
  end.

(** The body of [for (fn_name, fn_args) in tool_calls]. *)
Definition dispatch (st : turn_state) (call : text * text) : turn_state :=
  let '(fn_name, fn_args) := call in
  let tool_signature := fn_name ++ lit ":" ++ fn_args in
  if existsb (text_eqb tool_signature) st.(executed_tools) then st
  else
    let executed' := st.(executed_tools) ++ [tool_signature] in
    let args_map := args_map_of fn_args in
    let invoked' := st.(invoked) ++ [(fn_name, fn_args)] in
    match call_mcp_tool st.(invoked) fn_name args_map with
    | Ok tool_result =>
        let t := tool_response_text tool_result in
        {| full_response := st.(full_response) ++ t;
           executed_tools := executed';
           needs_continuation := true;
           invoked := invoked';
           emitted := st.(emitted) ++ [ToolCallEvent fn_name fn_args tool_result;
                                       ChatToken t false] |}
    | Err e =>
        let t := error_response_text e in
        {| full_response := st.(full_response) ++ t;
           executed_tools := executed';
           needs_continuation := true;
           invoked := invoked';
           emitted := st.(emitted) ++ [ChatToken t false] |}
    end.

(** One choice of a primary-stream chunk: append, emit, rescan, dispatch.
    The [finish_reason] branch only logs [has_incomplete_tool_call]. *)
Definition process_choice (st : turn_state) (chat_choice : choice) : turn_state :=
  match chat_choice.(delta_content) with
  | Some c =>
      let st0 := {| full_response := st.(full_response) ++ c;
                    executed_tools := st.(executed_tools);
                    needs_continuation := st.(needs_continuation);
                    invoked := st.(invoked);
                    emitted := st.(emitted) ++ [ChatToken c false] |} in
      fold_left dispatch (extract_all_tool_calls_from_xml st0.(full_response)) st0
  | None => st
  end.

(** [while let Some(result) = stream.next().await]: a transport error is
    reported and ends the loop. *)
Fixpoint consume_stream (st : turn_state) (items : list stream_item) : turn_state :=
  match items with
  | [] => st
  | Ok response :: rest => consume_stream (fold_left process_choice response st) rest
  | Err err :: _ =>
      {| full_response := st.(full_response);
         executed_tools := st.(executed_tools);
         needs_continuation := st.(needs_continuation);
         invoked := st.(invoked);
         emitted := st.(emitted) ++ [ChatErrorEvent (lit "Stream error: " ++ err)] |}
  end.

(** Continuation chunk: the [break] on a finish reason leaves the loop over
    the chunk's choices only. *)
Fixpoint continuation_choices (acc : text * list event) (choices : list choice)
  : text * list event :=
  match choices with
  | [] => acc
  | chat_choice :: rest =>
      let acc' := match chat_choice.(delta_content) with
                  | Some c => (fst acc ++ c, snd acc ++ [ChatToken c false])
                  | None => acc
                  end in
      match chat_choice.(finish_reason) with
      | Some _ => acc'
      | None => continuation_choices acc' rest
      end
  end.

Fixpoint consume_continuation (acc : text * list event) (items : list stream_item)
  : result text text * list event :=
  match items with
  | [] => (Ok (fst acc), snd acc)
  | Ok response :: rest => consume_continuation (continuation_choices acc response) rest
  | Err err :: _ => (Err (lit "Continuation stream error: " ++ err), snd acc)
  end.

Definition continuation_messages (system_message : text)
    (previous_messages : list req_message) (assistant_response_with_tools : text)
  : list req_message :=
  [SystemMsg system_message] ++ skipn 1 previous_messages
  ++ [AssistantMsg assistant_response_with_tools].

(** [continue_conversation_after_tools]: the request it sends, its result
    and the events it emits. *)
Definition continue_conversation_after_tools (system_message : text)
    (previous_messages : list req_message) (assistant_response_with_tools : text)
    (model_name : text) (seed : option Z) (max_tokens max_completion_tokens : option N)
  : request * result text text * list event :=
  let req := build_request model_name
               (continuation_messages system_message previous_messages
                  assistant_response_with_tools)
               seed max_tokens max_completion_tokens in
  match create_stream req with
  | Err e => (req, Err (lit "Failed to create continuation stream: " ++ e), [])
  | Ok items => let '(r, evs) := consume_continuation ([], []) items in (req, r, evs)
  end.

(** [format!("{}{}", base_system_message, tools_info)] *)
Definition system_message_of (system_prompt : option text) : text :=
  unwrap_or system_prompt default_system_prompt ++ tools_info.

(** The request [chat_with_loaded_model_streaming] builds and streams. *)
Definition primary_request (model_name message : text)
    (session_id : option text) (include_history : option bool)
    (system_prompt : option text) (seed : option Z)
    (max_tokens max_completion_tokens : option N) : request :=
  build_request model_name
    (build_messages (system_message_of system_prompt) message session_id include_history)
    seed max_tokens max_completion_tokens.

Definition chat_with_loaded_model_streaming (model_name message : text)
    (session_id : option text) (include_history : option bool)
    (system_prompt : option text) (seed : option Z)
    (max_tokens max_completion_tokens : option N) : turn_outcome :=
  let system_message := system_message_of system_prompt in
  let messages := build_messages system_message message session_id include_history in
  let req := primary_request model_name message session_id include_history system_prompt
               seed max_tokens max_completion_tokens in
  match create_stream req with
  | Err e =>
      {| outcome := Err (lit "Failed to create chat stream: " ++ e);
         requests := [req]; events := []; tool_invocations := [] |}
  | Ok items =>
      let st := consume_stream init_state items in
      let full := st.(full_response) in
      let finished := [ChatToken [] true] in
      if st.(needs_continuation) && check_if_continuation_needed full then
        let '(creq, cres, cevents) :=
          continue_conversation_after_tools system_message messages full
            model_name seed max_tokens max_completion_tokens in
        match cres with
        | Ok continued_response =>
            {| outcome := Ok (if trim_is_empty continued_response then full
                              else full ++ continued_response);
               requests := [req; creq];
               events := st.(emitted) ++ cevents ++ finished;
               tool_invocations := st.(invoked) |}
        | Err e =>
            let error_msg := continuation_error_text e in
            {| outcome := Ok (full ++ error_msg);
               requests := [req; creq];
               events := st.(emitted) ++ cevents ++ [ChatToken error_msg false] ++ finished;
               tool_invocations := st.(invoked) |}
        end
      else
        {| outcome := Ok full; requests := [req];
           events := st.(emitted) ++ finished; tool_invocations := st.(invoked) |}
  end.

End Turn.

(** * Specification vocabulary *)

(** [p] occurs in [t] at offset [i]. *)
Definition occurs (p t : text) (i : nat) : Prop := starts_with p (skipn i t) = true.

(** Buffers laid out as text, then blocks each followed by text. *)
Definition block (inner : text) : text := open_tag ++ inner ++ close_tag.

Definition layout (t0 : text) (blocks : list (text * text)) : text :=
  t0 ++ List.concat (map (fun b => block (fst b) ++ snd b) blocks).

Definition option_list {A} (o : option A) : list A :=
  match o with Some a => [a] | None => [] end.

Definition clean_blocks (blocks : list (text * text)) : Prop :=
  Forall (fun b => contains close_tag (fst b) = false /\ contains open_tag (snd b) = false)
    blocks.

Definition tool_response_tag : text := lit "<tool_response>".

(** The request message a [user] or [assistant] history entry stands for. *)
Definition history_entry_to_request (msg : ChatMessage) : req_message :=
  if text_eqb msg.(role) (lit "user") then UserMsg msg.(content)
  else AssistantMsg msg.(content).

Definition is_ok (item : stream_item) : bool :=
  match item with Ok _ => true | Err _ => false end.

Definition signature (call : text * text) : text := fst call ++ lit ":" ++ snd call.

(** The delta text of a choice, a chunk, and a stream up to its first
    transport error. *)
Definition choice_text (ch : choice) : text := unwrap_or ch.(delta_content) [].

Definition chunk_text (c : chunk) : text := flat_map choice_text c.

Fixpoint stream_text (items : list stream_item) : text :=
  match items with
  | [] => []
  | Ok c :: rest => chunk_text c ++ stream_text rest
  | Err _ :: _ => []
  end.

(** The text carried by the token events of a list of events. *)
Definition tokens_text (evs : list event) : text :=
  flat_map (fun e => match e with ChatToken t _ => t | _ => [] end) evs.

Definition is_content_token (e : event) : Prop :=
  match e with ChatToken _ false => True | _ => False end.

(** What the turn state guarantees at every step. *)
Definition turn_inv (st : turn_state) : Prop :=
  st.(executed_tools) = map signature st.(invoked)
  /\ NoDup st.(executed_tools)
  /\ (st.(needs_continuation) = true -> contains tool_response_tag st.(full_response) = true).

(** * Concrete turns *)

(** [serde_json] on the texts the concrete runs below parse and on the maps
    they serialise.  [demo_values] lists the JSON texts among them with the
    value [serde_json::from_str] gives; the other texts those runs parse are
    not JSON ([{"name": oops], [{"name":"time_now","arguments":{], and
    region bodies starting with [<tool_call>]), and [serde_json::from_str]
    rejects them. *)
Definition demo_values : list (text * json) :=
  [(qlit "{'name':'time_now','arguments':{}}",
    JObject [(lit "arguments", JObject []); (lit "name", JString (lit "time_now"))]);
   (qlit "{'name':'b','arguments':{'x':1}}",
    JObject [(lit "arguments", JObject [(lit "x", JNumber (lit "1"))]);
             (lit "name", JString (lit "b"))]);
   (lit "{}", JObject [])].

Fixpoint demo_lookup (t : text) (vs : list (text * json)) : option json :=
  match vs with
  | [] => None
  | (k, v) :: vs' => if text_eqb t k then Some v else demo_lookup t vs'
  end.

(** The compact output of [serde_json::to_string] for the empty map and for
    a map with one number under a key that needs no escaping, the only maps
    the runs serialise. *)
Definition demo_to_string (m : list (text * json)) : text :=
  match m with
  | [] => lit "{}"
  | [(k, JNumber n)] => ["{"%char; dq] ++ k ++ [dq; ":"%char] ++ n ++ ["}"%char]
  | _ => []
  end.

Definition demo_serde : SerdeJson :=
  {| from_str := fun t => demo_lookup t demo_values; to_string := demo_to_string |}.

(** A tool invoker that knows one tool, [time_now]. *)
Definition demo_invoker (_ : list (text * text)) (name : text)
    (_ : option (list (text * json))) : result text text :=
  if text_eqb name (lit "time_now") then Ok (lit "42") else Err (lit "boom").

(** A backend answering the primary request with [prim] and the
    continuation request (the one ending with an assistant message) with
    [cont]. *)
Definition demo_stream (prim cont : list stream_item) (req : request)
  : result (list stream_item) text :=
  match rev req.(req_messages) with
  | AssistantMsg _ :: _ => Ok cont
  | _ => Ok prim
  end.

Definition demo_message (r : string) (c : text) : ChatMessage :=
  {| msg_id := lit "id"; role := lit r; content := c; timestamp := 0%Z; is_error := None |}.

Definition demo_history : list ChatMessage :=
  [demo_message "system" (lit "be brief");
   demo_message "user" (lit "hello");
   demo_message "tool" (lit "{}");
   demo_message "assistant" (lit "hi there");
   demo_message "user" (lit "what time is it")].

Definition demo_session (_ : text) : result (list ChatMessage) text := Ok demo_history.

Definition demo_chunk (c : text) (fin : option text) : stream_item :=
  Ok [{| delta_content := Some c; finish_reason := fin |}].

Definition demo_call : text := qlit "<tool_call>{'name':'time_now','arguments':{}}</tool_call>".

Definition demo_run (prim cont : list stream_item) (message : text) : turn_outcome :=
  chat_with_loaded_model_streaming (serde := demo_serde) demo_invoker
    (demo_stream prim cont) demo_session []
    (lit "m") message None None None None None None.

Definition demo_primary (prim cont : list stream_item) (message : text) : request :=
  primary_request demo_session [] (lit "m") message None None None None None None.

(** * Text helpers of chat.rs *)

(** [str::is_char_boundary]: [i] is [0], the length, or the offset of a
    byte that is not a UTF-8 continuation byte ([0x80..0xBF]). *)
Definition is_continuation_byte (b : ascii) : bool :=
  let n := nat_of_ascii b in (128 <=? n) && (n <? 192).

Definition is_char_boundary (t : text) (i : nat) : bool :=
  (i =? 0) || match nth_error t i with
              | Some b => negb (is_continuation_byte b)
              | None => i =? List.length t
              end.

(** [&t[..i]]; [None] is the panic on an index that is past the end or
    inside a character. *)
Definition slice_to (t : text) (i : nat) : option text :=
  if is_char_boundary t i then Some (firstn i t) else None.

(** [truncate_content]; [None] is the panic of [&content[..max_length]].
    The second slice [&truncated[..last_space]] cannot panic: a space is a
    one-byte character. *)
Definition truncate_content (content : text) (max_length : nat) : option text :=
  if List.length content <=? max_length then Some content
  else match slice_to content max_length with
       | None => None
       | Some truncated =>
           match rfind (lit " ") truncated with
           | Some last_space => Some (firstn last_space truncated ++ lit "...")
           | None => Some (truncated ++ lit "...")
           end
       end.

(** [str::ends_with] *)
Definition ends_with (p t : text) : bool :=
  (List.length p <=? List.length t)
  && text_eqb (skipn (List.length t - List.length p) t) p.

Definition is_title_punct (b : ascii) : bool := existsb (chr_eqb b) (lit ".,!?;:").

(** [trim_end_matches(['.', ',', '!', '?', ';', ':'])]: the patterns are
    one-byte characters, so stripping trailing bytes is stripping trailing
    characters. *)
Definition trim_end_punct (t : text) : text := rev (drop_while is_title_punct (rev t)).

Section Title.

(** [c.to_uppercase().next().unwrap_or(c)] on code points: the first code
    point of the Unicode uppercase mapping, a table of the standard library. *)
Variable char_to_uppercase : Z -> Z.

(** [chars[0] = chars[0].to_uppercase()...; chars.into_iter().collect()] *)
Definition capitalize_first (t : text) : text :=
  match t with
  | [] => []
  | b :: _ =>
      encode_utf8 (char_to_uppercase (decode_char (firstn (utf8_char_len b) t)))
      ++ skipn (utf8_char_len b) t
  end.

(** [generate_chat_title]; [None] is the panic of [&cleaned[..60]].  The
    slice [&cleaned[..break_point]] cannot panic: [break_point] is [60],
    checked by the first slice, or the offset of a space. *)
Definition generate_chat_title (content : text) : option text :=
  let cleaned := trim content in
  let title :=
    if List.length cleaned <=? 60 then Some cleaned
    else match slice_to cleaned 60 with
         | None => None
         | Some pre =>
             let break_point :=
               match rfind (lit " ") pre with
               | Some space_pos => if 40 <? space_pos then space_pos else 60
               | None => 60
               end in
             Some (firstn break_point cleaned ++ lit "...")
         end in
  match title with
  | None => None
  | Some title =>
      let result := capitalize_first title in
      if ends_with (lit "...") result then
        let without_ellipsis := firstn (List.length result - 3) result in
        Some (trim_end_punct without_ellipsis ++ lit "...")
      else Some result
  end.

End Title.

(** * Chat sessions store (chat.rs)

    [load_chat_sessions] and [save_chat_sessions] read and write
    [~/.sparrow/chat_sessions.json]; a command sees what the load returned
    and reports the storage it handed to the save, with its result. *)
Module Sessions.

Section Store.

(** [f64], only stored and copied. *)
Context {f64 : Type}.

Record ChatMessage := {
  msg_id : text;
  role : text;
  content : text;
  timestamp : Z;
  tokens_per_second : option f64;
  is_error : option bool
}.

Record ChatSession := {
  id : text;
  title : text;
  created_at : Z;
  updated_at : Z;
  model_id : option text;
  messages : list ChatMessage
}.

(** [HashMap<String, ChatSession>] as an association list with one entry
    per key. *)
Record ChatSessionsStorage := {
  sessions : list (text * ChatSession);
  active_session_id : option text
}.

Definition hm_get (k : text) (m : list (text * ChatSession)) : option ChatSession :=
  option_map snd (List.find (fun kv => text_eqb (fst kv) k) m).

Definition hm_contains_key (k : text) (m : list (text * ChatSession)) : bool :=
  existsb (fun kv => text_eqb (fst kv) k) m.

Definition hm_remove (k : text) (m : list (text * ChatSession)) : list (text * ChatSession) :=
  filter (fun kv => negb (text_eqb (fst kv) k)) m.

Definition hm_insert (k : text) (v : ChatSession) (m : list (text * ChatSession))
  : list (text * ChatSession) :=
  (k, v) :: hm_remove k m.

(** [ChatSessionsStorage::default()] *)
Definition default_storage : ChatSessionsStorage :=
  {| sessions := []; active_session_id := None |}.

Variable char_to_uppercase : Z -> Z.
(** What [load_chat_sessions()] returns. *)
Variable loaded : result ChatSessionsStorage text.
(** What [save_chat_sessions(&storage)] returns. *)
Variable save : ChatSessionsStorage -> result unit text.
(** [Uuid::new_v4().to_string()] and [Utc::now().timestamp_millis()]. *)
Variable new_uuid : text.
Variable now : Z.

(** The storage handed to [save_chat_sessions], if any, and the result. *)
Definition command (A : Type) : Type := (option ChatSessionsStorage * result A text)%type.

(** [let mut storage = load_chat_sessions()?;] *)
Definition with_storage {A} (k : ChatSessionsStorage -> command A) : command A :=
  match loaded with
  | Ok storage => k storage
  | Err e => (None, Err e)
  end.

(** [save_chat_sessions(&storage)?; Ok(v)] *)
Definition save_then {A} (storage : ChatSessionsStorage) (v : A) : command A :=
  (Some storage, match save storage with Ok _ => Ok v | Err e => Err e end).

Definition not_found (session_id : text) : text := lit "Chat session not found: " ++ session_id.

Definition new_session (title_arg : option text) : ChatSession :=
  {| id := new_uuid; title := unwrap_or title_arg (lit "New Chat");
     created_at := now; updated_at := now; model_id := None; messages := [] |}.

Definition create_chat_session (title_arg : option text) : command ChatSession :=
  with_storage (fun storage =>
    let session := new_session title_arg in
    save_then {| sessions := hm_insert new_uuid session storage.(sessions);
                 active_session_id := Some new_uuid |} session).

Definition create_temporary_chat_session (title_arg : option text) : ChatSession :=
  new_session title_arg.

Definition update_chat_session (session_id : text) (title_arg model_id_arg : option text)
  : command ChatSession :=
  with_storage (fun storage =>
    match hm_get session_id storage.(sessions) with
    | None => (None, Err (not_found session_id))
    | Some session =>
        let updated_session :=
          {| id := session.(id);
             title := unwrap_or title_arg session.(title);
             created_at := session.(created_at);
             updated_at := now;
             model_id := match model_id_arg with
                         | Some m => Some m
                         | None => session.(model_id)
                         end;
             messages := session.(messages) |} in
        save_then {| sessions := hm_insert session_id updated_session storage.(sessions);
                     active_session_id := storage.(active_session_id) |} updated_session
    end).

Definition option_text_eqb (a b : option text) : bool :=
  match a, b with
  | Some x, Some y => text_eqb x y
  | None, None => true
  | _, _ => false
  end.

Definition delete_chat_session (session_id : text) : command text :=
  with_storage (fun storage =>
    if negb (hm_contains_key session_id storage.(sessions)) then
      (None, Err (not_found session_id))
    else
      let active :=
        if option_text_eqb storage.(active_session_id) (Some session_id) then None
        else storage.(active_session_id) in
      save_then {| sessions := hm_remove session_id storage.(sessions);
                   active_session_id := active |}
        (lit "Chat session deleted: " ++ session_id)).

Definition set_active_chat_session (session_id : text) : command text :=
  with_storage (fun storage =>
    if negb (hm_contains_key session_id storage.(sessions)) then
      (None, Err (not_found session_id))
    else
      save_then {| sessions := storage.(sessions);
                   active_session_id := Some session_id |} session_id).

(** The session after [session.messages.push(message)], the new
    [updated_at] and the title rule; [None] is a panic of
    [generate_chat_title]. *)
Definition push_message (session : ChatSession) (message : ChatMessage)
  : option ChatSession :=
  let pushed := {| id := session.(id); title := session.(title);
                   created_at := session.(created_at); updated_at := now;
                   model_id := session.(model_id);
                   messages := session.(messages) ++ [message] |} in
  if text_eqb session.(title) (lit "New Chat") && text_eqb message.(role) (lit "user") then
    match generate_chat_title char_to_uppercase message.(content) with
    | None => None
    | Some t => Some {| id := pushed.(id); title := t; created_at := pushed.(created_at);
                        updated_at := pushed.(updated_at); model_id := pushed.(model_id);
                        messages := pushed.(messages) |}
    end
  else Some pushed.

Definition new_message (role_arg content_arg : text) (tps : option f64)
    (is_error_arg : option bool) : ChatMessage :=
  {| msg_id := new_uuid; role := role_arg; content := content_arg; timestamp := now;
     tokens_per_second := tps; is_error := is_error_arg |}.

(** [add_message_to_session]; [None] is a panic. *)
Definition add_message_to_session (session_id role_arg content_arg : text)
    (tps : option f64) (is_error_arg : option bool) : option (command ChatMessage) :=
  match loaded with
  | Err e => Some (None, Err e)
  | Ok storage =>
      match hm_get session_id storage.(sessions) with
      | None => Some (None, Err (not_found session_id))
      | Some session =>
          let message := new_message role_arg content_arg tps is_error_arg in
          match push_message session message with
          | None => None
          | Some session' =>
              Some (save_then {| sessions := hm_insert session_id session' storage.(sessions);
                                 active_session_id := storage.(active_session_id) |} message)
          end
      end
  end.

Definition persist_temporary_session (session : ChatSession) : command ChatSession :=
  with_storage (fun storage =>
    save_then {| sessions := hm_insert session.(id) session storage.(sessions);
                 active_session_id := Some session.(id) |} session).

(** [add_message_to_temporary_session]; [None] is a panic. *)
Definition add_message_to_temporary_session (session : ChatSession) (role_arg content_arg : text)
    (tps : option f64) (is_error_arg : option bool) : option (ChatSession * ChatMessage) :=
  let message := new_message role_arg content_arg tps is_error_arg in
  match push_message session message with
  | None => None
  | Some session' => Some (session', message)
  end.

Definition get_session_messages (session_id : text) : result (list ChatMessage) text :=
  match loaded with
  | Err e => Err e
  | Ok storage =>
      match hm_get session_id storage.(sessions) with
      | None => Err (not_found session_id)
      | Some session => Ok session.(messages)
      end
  end.

Definition get_conversation_history (session_id : text) : result (list ChatMessage) text :=
  match loaded with
  | Err e => Err e
  | Ok storage =>
      match hm_get session_id storage.(sessions) with
      | None => Err (not_found session_id)
      | Some session =>
          Ok (filter (fun msg => text_eqb msg.(role) (lit "user")
                                 || text_eqb msg.(role) (lit "assistant"))
                session.(messages))
      end
  end.

End Store.

(** Every stored session is filed under its own id, and the active id, if
    any, names a stored session. *)
Definition storage_ok {f64} (storage : @ChatSessionsStorage f64) : Prop :=
  (forall k s, hm_get k storage.(sessions) = Some s -> s.(id) = k)
  /\ (forall a, storage.(active_session_id) = Some a ->
                hm_contains_key a storage.(sessions) = true).

End Sessions.

(** The history the turn reads: [get_conversation_history] of the sessions
    store, seen through the turn's view of a message (every field but
    [tokens_per_second], which the turn never reads). *)
Definition to_turn_message {f64} (m : @Sessions.ChatMessage f64) : ChatMessage :=
  {| msg_id := Sessions.msg_id m; role := Sessions.role m; content := Sessions.content m;
     timestamp := Sessions.timestamp m; is_error := Sessions.is_error m |}.

Definition session_loader {f64} (loaded : result (@Sessions.ChatSessionsStorage f64) text)
    (session_id : text) : result (list ChatMessage) text :=
  match Sessions.get_session_messages loaded session_id with
  | Ok messages => Ok (map to_turn_message messages)
  | Err e => Err e
  end.

(** * Concrete sessions *)

(** ASCII upper-casing, enough for the titles below. *)
Definition demo_upper (c : Z) : Z :=
  if ((97 <=? c)%Z && (c <=? 122)%Z)%bool then (c - 32)%Z else c.

Definition demo_long_question : text :=
  lit "  how do I write a really long question title that goes on and on, right?  ".

Definition demo_punct_question : text :=
  lit "Is there a way to list every file, folder, and hidden item; quickly?".

Definition demo_msg (r : string) (c : text) : @Sessions.ChatMessage unit :=
  {| Sessions.msg_id := lit "m0"; Sessions.role := lit r; Sessions.content := c;
     Sessions.timestamp := 0%Z; Sessions.tokens_per_second := None;
     Sessions.is_error := None |}.

Definition demo_chat : @Sessions.ChatSession unit :=
  {| Sessions.id := lit "a"; Sessions.title := lit "New Chat"; Sessions.created_at := 0%Z;
     Sessions.updated_at := 0%Z; Sessions.model_id := None;
     Sessions.messages := [demo_msg "user" (lit "hello");
                           demo_msg "assistant" (lit "hi there")] |}.

Definition demo_storage : @Sessions.ChatSessionsStorage unit :=
  {| Sessions.sessions := [(lit "a", demo_chat)];
     Sessions.active_session_id := Some (lit "a") |}.

Definition demo_save (_ : @Sessions.ChatSessionsStorage unit) : result unit text := Ok tt.

(** A document index of two documents, each result being its content, that
    the reranker returns in reverse order. *)
Definition demo_embed (_ : text) : result unit text := Ok tt.
Definition demo_store : result unit text := Ok tt.
Definition demo_search (_ _ : unit) (_ : N) : result (list text) text :=
  Ok [lit "alpha beta"; lit "gamma"].
Definition demo_rerank (_ : text) (rs : list text) : result (list text) text := Ok (rev rs).
Definition demo_doc_title (_ : text) : text := lit "doc".
Definition demo_relevance (_ : text) : text := lit "0.90".

(** * Retrieval-augmented turn (chat.rs) *)

(** [usize] values as [N]; arithmetic wraps modulo [2^64] (release build). *)
Definition usize_wrap (n : N) : N := N.modulo n (2 ^ 64).

(** Decimal digits of a natural number, for [format!("{}", n)]. *)
Fixpoint decimal_aux (fuel n : nat) (acc : text) : text :=
  match fuel with
  | 0 => acc
  | S f =>
      let acc' := ascii_of_nat (48 + n mod 10) :: acc in
      if n <? 10 then acc' else decimal_aux f (n / 10) acc'
  end.

Definition decimal (n : nat) : text := decimal_aux (S n) n [].

Section Retrieval.

Context {Embedding VectorStore SearchResult : Type}.
Variable create_single_embedding : text -> result Embedding text.
Variable vector_store_new : result VectorStore text.
Variable search_similar : VectorStore -> Embedding -> N -> result (list SearchResult) text.
Variable rerank : text -> list SearchResult -> result (list SearchResult) text.
(** [result.document.title], [result.document.content], and
    [format!("{:.2}", result.rerank_score.unwrap_or(result.score))]. *)
Variable document_title document_content relevance_text : SearchResult -> text.

(** One [Source i: ...] entry; [None] is a panic of [truncate_content]. *)
Definition source_entry (i : nat) (r : SearchResult) : option text :=
  match truncate_content (document_content r) 500 with
  | None => None
  | Some c =>
      Some (lit "Source " ++ decimal (S i) ++ lit ": " ++ document_title r ++ [nl]
            ++ lit "Content: " ++ c ++ [nl] ++ lit "Relevance Score: " ++ relevance_text r
            ++ [nl] ++ lit "---")
  end.

Fixpoint source_entries (i : nat) (rs : list SearchResult) : option (list text) :=
  match rs with
  | [] => Some []
  | r :: rs' =>
      match source_entry i r, source_entries (S i) rs' with
      | Some e, Some es => Some (e :: es)
      | _, _ => None
      end
  end.

(** [perform_rag_retrieval]; the outer [None] is a panic. *)
Definition perform_rag_retrieval (query : text) (limit : N) : option (result text text) :=
  match create_single_embedding query with
  | Err e => Some (Err e)
  | Ok query_embedding =>
      match vector_store_new with
      | Err e => Some (Err e)
      | Ok vector_store =>
          match search_similar vector_store query_embedding (usize_wrap (limit * 2)) with
          | Err e => Some (Err e)
          | Ok [] => Some (Ok [])
          | Ok search_results =>
              match rerank query search_results with
              | Err e => Some (Err e)
              | Ok reranked_results =>
                  match source_entries 0
                          (firstn (N.to_nat (N.min 3 limit)) reranked_results) with
                  | None => None
                  | Some entries => Some (Ok (join [nl] entries))
                  end
              end
          end
      end
  end.

End Retrieval.

Definition rag_default_prompt : text :=
  lit "You're an AI assistant that provides helpful responses.".

(** [enhanced_system_prompt] *)
Definition enhanced_system_prompt (system_prompt : option text) (context_content : text)
  : text :=
  let base := unwrap_or system_prompt rag_default_prompt in
  if negb (match context_content with [] => true | _ => false end) then
    base ++ [nl; nl] ++ lit "Relevant context from documents:" ++ [nl] ++ context_content
    ++ [nl; nl]
    ++ lit "Use this context to answer the user's question when relevant. If the context doesn't contain relevant information, answer based on your general knowledge."
  else base.

Section RagTurn.

Context `{serde : SerdeJson}.

Variable call_mcp_tool :
  list (text * text) -> text -> option (list (text * json)) -> result text text.
Variable create_stream : request -> result (list stream_item) text.
Variable load_session : text -> result (list ChatMessage) text.
Variable tools_info : text.
(** [perform_rag_retrieval(&message, limit).await] *)
Variable rag_retrieval : text -> N -> result text text.

Definition chat_with_rag_streaming (model_name message : text)
    (session_id : option text) (include_history : option bool)
    (system_prompt : option text) (seed : option Z)
    (max_tokens max_completion_tokens : option N)
    (use_rag : option bool) (rag_limit : option N) : turn_outcome :=
  let context_content :=
    if unwrap_or use_rag false then
      match rag_retrieval message (unwrap_or rag_limit 5%N) with
      | Ok context => context
      | Err _ => []
      end
    else [] in
  chat_with_loaded_model_streaming call_mcp_tool create_stream load_session tools_info
    model_name message session_id include_history
    (Some (enhanced_system_prompt system_prompt context_content))
    seed max_tokens max_completion_tokens.

End RagTurn.

(** * Properties *)

(** ** Byte-string search *)

Lemma chr_eqb_refl (a : ascii) : chr_eqb a a = true.
Proof. apply Ascii.eqb_refl. Qed.

Lemma chr_eqb_true (a b : ascii) : chr_eqb a b = true -> a = b.
Proof. apply Ascii.eqb_eq. Qed.

Lemma starts_with_nil_r (p : text) : p <> [] -> starts_with p [] = false.
Proof. destruct p; [congruence | reflexivity]. Qed.

Lemma starts_with_self (p u : text) : starts_with p (p ++ u) = true.
Proof. induction p; simpl; rewrite ?chr_eqb_refl; auto. Qed.

Lemma starts_with_length (p t : text) :
  starts_with p t = true -> List.length p <= List.length t.
Proof.
  revert t; induction p as [|a p IH]; intros [|b t] H; simpl in *; try lia;
    try discriminate.
  apply andb_prop in H as [_ H]. apply IH in H. lia.
Qed.

Lemma starts_with_app_long (p t u : text) :
  List.length p <= List.length t -> starts_with p (t ++ u) = starts_with p t.
Proof.
  revert t; induction p as [|a p IH]; intros [|b t] H; simpl in *; try lia; auto.
  rewrite IH by lia. reflexivity.
Qed.

Lemma starts_with_app (p t u : text) :
  starts_with p t = true -> starts_with p (t ++ u) = true.
Proof.
  intros H. rewrite starts_with_app_long; auto using starts_with_length.
Qed.

Lemma occurs_skipn (p t : text) (i j : nat) :
  occurs p (skipn i t) j <-> occurs p t (j + i).
Proof. unfold occurs. rewrite skipn_skipn. reflexivity. Qed.

Lemma find_Some (p t : text) (i : nat) :
  find p t = Some i <-> occurs p t i /\ (forall j, j < i -> ~ occurs p t j).
Proof.
  unfold occurs. revert i; induction t as [|a t IH]; intros i; simpl.
  - destruct (starts_with p []) eqn:E.
    + split.
      * intros H; injection H as <-. split; [rewrite skipn_nil; auto | lia].
      * intros [_ H]. destruct i; auto. exfalso. apply (H 0); [lia|]. auto.
    + split; [discriminate|]. intros [H _]. rewrite skipn_nil in H. congruence.
  - destruct (starts_with p (a :: t)) eqn:E.
    + split.
      * intros H; injection H as <-. split; [auto | lia].
      * intros [_ H]. destruct i; auto. exfalso. apply (H 0); [lia|]. auto.
    + split.
      * case_eq (find p t); [intros k F | intros F]; simpl; [|discriminate].
        intros H; injection H as <-. apply IH in F as [F1 F2].
        split; [auto|]. intros [|j] Hj; simpl; [congruence|]. apply F2. lia.
      * intros [H1 H2]. destruct i as [|i]; [simpl in H1; congruence|].
        assert (F : find p t = Some i).
        { apply IH. split; [auto|]. intros j Hj. apply (H2 (S j)). lia. }
        rewrite F. reflexivity.
Qed.

Lemma find_None (p t : text) :
  find p t = None <-> (forall j, ~ occurs p t j).
Proof.
  unfold occurs. induction t as [|a t IH]; simpl.
  - destruct (starts_with p []) eqn:E.
    + split; [discriminate|]. intros H. exfalso. apply (H 0). auto.
    + split; auto. intros _ j. rewrite skipn_nil. congruence.
  - destruct (starts_with p (a :: t)) eqn:E.
    + split; [discriminate|]. intros H. exfalso. apply (H 0). auto.
    + case_eq (find p t); [intros k F | intros F]; simpl.
      * split; [discriminate|]. intros H. exfalso.
        assert (Hn : find p t = None) by (apply IH; intros j; apply (H (S j))).
        congruence.
      * split; auto. intros _ [|j]; simpl; [congruence|]. apply IH. exact F.
Qed.

Lemma rfind_None (p t : text) :
  p <> [] -> rfind p t = None -> forall j, ~ occurs p t j.
Proof.
  unfold occurs. intros Hp. induction t as [|a t IH]; simpl; intros H j.
  - rewrite skipn_nil, starts_with_nil_r by auto. discriminate.
  - destruct (rfind p t); [discriminate|].
    destruct (starts_with p (a :: t)) eqn:E; [discriminate|].
    destruct j as [|j]; simpl; [congruence|]. apply IH; auto.
Qed.

Lemma rfind_Some (p t : text) (i : nat) :
  p <> [] -> rfind p t = Some i ->
  occurs p t i /\ (forall j, occurs p t j -> j <= i).
Proof.
  unfold occurs. intros Hp. revert i; induction t as [|a t IH]; intros i; simpl.
  - rewrite starts_with_nil_r by auto. discriminate.
  - destruct (rfind p t) as [k|] eqn:R.
    + intros H; injection H as <-. destruct (IH k eq_refl) as [H1 H2].
      split; [auto|]. intros [|j] Hj; [lia|]. apply H2 in Hj. lia.
    + destruct (starts_with p (a :: t)) eqn:E; [|discriminate].
      intros H; injection H as <-. split; [auto|].
      intros [|j] Hj; [lia|]. exfalso.
      exact (rfind_None p t Hp R j Hj).
Qed.

Lemma open_tag_nonempty : open_tag <> [].
Proof. discriminate. Qed.

Lemma close_tag_nonempty : close_tag <> [].
Proof. discriminate. Qed.

(** ** [has_incomplete_tool_call] *)

(** C4: [has_incomplete_tool_call] is true exactly when the buffer has an
    opening [<tool_call>] tag and no [</tool_call>] closing tag starts at or
    after the last opening tag; in particular it is true on a buffer ending
    in an unterminated [<tool_call>{"name":"x"}] and false on a buffer whose
    last block is closed. *)
Theorem has_incomplete_tool_call_spec (t : text) :
  (has_incomplete_tool_call t = true <->
   exists i, occurs open_tag t i
             /\ (forall j, occurs open_tag t j -> j <= i)
             /\ (forall j, i <= j -> ~ occurs close_tag t j))
  /\ has_incomplete_tool_call (qlit "abc <tool_call>{'name':'x'}") = true
  /\ has_incomplete_tool_call
       (qlit "abc <tool_call>{'name':'x','arguments':{}}</tool_call>") = false.
Proof.
  split; [|split; vm_compute; reflexivity].
  unfold has_incomplete_tool_call.
  destruct (rfind open_tag t) as [start|] eqn:R.
  - destruct (rfind_Some _ _ _ open_tag_nonempty R) as [Hocc Hmax].
    destruct (find close_tag (skipn start t)) as [e|] eqn:F.
    + split; [discriminate|]. intros (i & Hi & Himax & Hclose).
      apply find_Some in F as [F _].
      assert (i = start) as -> by (apply Hmax in Hi; apply Himax in Hocc; lia).
      exfalso. apply (Hclose (e + start)); [lia|]. apply occurs_skipn. exact F.
    + split; [intros _|reflexivity]. exists start. split; [exact Hocc|].
      split; [exact Hmax|]. intros j Hj Hc.
      rewrite find_None in F. apply (F (j - start)).
      apply occurs_skipn. replace (j - start + start) with j by lia. exact Hc.
  - split; [discriminate|]. intros (i & Hi & _).
    exfalso. exact (rfind_None _ _ open_tag_nonempty R i Hi).
Qed.

(** ** [extract_all_tool_calls_from_xml] *)

Lemma contains_false (p t : text) :
  contains p t = false <-> forall j, ~ occurs p t j.
Proof.
  unfold contains. rewrite <- find_None.
  destruct (find p t); split; congruence.
Qed.

Lemma starts_with_nth (q r : text) (a : ascii) (v : text) :
  List.length r < List.length q -> starts_with q (r ++ a :: v) = true ->
  nth_error q (List.length r) = Some a.
Proof.
  revert q; induction r as [|b r IH]; intros [|c q] Hl H; simpl in *; try lia.
  - apply andb_prop in H as [H _]. apply chr_eqb_true in H. congruence.
  - apply andb_prop in H as [_ H]. apply IH; auto. lia.
Qed.

(** A pattern whose first byte does not recur cannot start inside a text
    that does not contain it and end inside a following copy of itself. *)
Lemma find_first_copy (a : ascii) (p' t u : text) :
  ~ In a p' -> (forall j, ~ occurs (a :: p') t j) ->
  find (a :: p') (t ++ (a :: p') ++ u) = Some (List.length t).
Proof.
  intros Ha Ht. apply find_Some. split.
  - unfold occurs. rewrite skipn_app, skipn_all, Nat.sub_diag. exact (starts_with_self (a :: p') u).
  - intros j Hj Hocc. unfold occurs in Hocc.
    rewrite skipn_app, (proj2 (Nat.sub_0_le j (List.length t))) in Hocc by lia.
    change (skipn 0 ((a :: p') ++ u)) with ((a :: p') ++ u) in Hocc.
    destruct (Nat.le_gt_cases (S (List.length p')) (List.length (skipn j t))) as [Hlong|Hshort].
    + rewrite starts_with_app_long in Hocc by (simpl; lia). exact (Ht j Hocc).
    + destruct (skipn j t) as [|b r] eqn:E.
      * apply (f_equal (@List.length ascii)) in E. rewrite length_skipn in E.
        simpl in E. lia.
      * simpl in Hocc, Hshort. apply andb_prop in Hocc as [_ Hocc].
        apply starts_with_nth in Hocc; [|lia].
        apply Ha. eapply nth_error_In. exact Hocc.
Qed.

Lemma open_tag_head : ~ In "<"%char (tl open_tag).
Proof. simpl. intuition discriminate. Qed.

Lemma close_tag_head : ~ In "<"%char (tl close_tag).
Proof. simpl. intuition discriminate. Qed.

Lemma find_open_tag (t u : text) :
  contains open_tag t = false ->
  find open_tag (t ++ open_tag ++ u) = Some (List.length t).
Proof.
  intros H. pose proof (proj1 (contains_false _ _) H) as H'.
  apply (find_first_copy "<"%char (tl open_tag)); [exact open_tag_head | exact H'].
Qed.

Lemma no_close_in_open (inner : text) :
  contains close_tag inner = false -> forall j, ~ occurs close_tag (open_tag ++ inner) j.
Proof.
  intros H j. apply contains_false with (j := j - 11) in H.
  do 11 (destruct j as [|j]; [unfold occurs; simpl; congruence|]).
  replace (S (S (S (S (S (S (S (S (S (S (S j)))))))))) - 11) with j in H by lia.
  exact H.
Qed.

Lemma find_close_tag (inner u : text) :
  contains close_tag inner = false ->
  find close_tag (open_tag ++ inner ++ close_tag ++ u)
  = Some (11 + List.length inner).
Proof.
  intros H. rewrite app_assoc.
  replace (11 + List.length inner) with (List.length (open_tag ++ inner))
    by (rewrite length_app; reflexivity).
  apply (find_first_copy "<"%char (tl close_tag)); [exact close_tag_head|].
  apply no_close_in_open. exact H.
Qed.

Section ScannerProps.

Context `{serde : SerdeJson}.

Lemma skipn_app_exact {A} (a b : list A) : skipn (List.length a) (a ++ b) = b.
Proof. rewrite skipn_app, skipn_all, Nat.sub_diag. reflexivity. Qed.

Lemma firstn_app_exact {A} (a b : list A) : firstn (List.length a) (a ++ b) = a.
Proof. rewrite firstn_app, firstn_all, Nat.sub_diag. apply app_nil_r. Qed.

Lemma extract_loop_shift (fuel : nat) (t : text) (ss : nat) :
  extract_loop fuel t ss = extract_loop fuel (skipn ss t) 0.
Proof.
  revert t ss; induction fuel as [|f IH]; intros t ss; [reflexivity|].
  simpl extract_loop.
  destruct (find open_tag (skipn ss t)) as [start|]; [|reflexivity].
  rewrite skipn_skipn, (Nat.add_comm start ss).
  destruct (find close_tag (skipn (ss + start) t)) as [e|]; [|reflexivity].
  unfold slice. rewrite !skipn_skipn.
  replace (ss + start + e - (ss + start + 11)) with (start + e - (start + 11)) by lia.
  replace (start + 11 + ss) with (ss + start + 11) by lia.
  rewrite (IH t), (IH (skipn ss t)), skipn_skipn.
  replace (start + e + 12 + ss) with (ss + start + e + 12) by lia.
  reflexivity.
Qed.

Lemma layout_cons (t0 inner t1 : text) (bs : list (text * text)) :
  layout t0 ((inner, t1) :: bs) = t0 ++ open_tag ++ inner ++ close_tag ++ layout t1 bs.
Proof. unfold layout, block. cbn [map List.concat fst snd]. rewrite <- !app_assoc. reflexivity. Qed.

Lemma layout_length (t0 : text) (blocks : list (text * text)) :
  List.length blocks <= List.length (layout t0 blocks).
Proof.
  revert t0; induction blocks as [|[inner t1] bs IH]; intros t0; [simpl; lia|].
  rewrite layout_cons, !length_app. specialize (IH t1). simpl. lia.
Qed.

Lemma extract_loop_layout (blocks : list (text * text)) (t0 : text) (fuel : nat) :
  contains open_tag t0 = false -> clean_blocks blocks -> List.length blocks < fuel ->
  extract_loop fuel (layout t0 blocks) 0
  = flat_map (fun b => option_list (tool_call_of (fst b))) blocks.
Proof.
  revert t0 fuel; induction blocks as [|[inner t1] bs IH]; intros t0 fuel H0 Hb Hf.
  - destruct fuel as [|f]; [reflexivity|]. simpl.
    unfold layout; simpl; rewrite app_nil_r.
    rewrite (proj2 (find_None _ _) (proj1 (contains_false _ _) H0)). reflexivity.
  - inversion Hb as [|? ? [Hi Ht1] Hbs]; subst. simpl in Hi, Ht1.
    destruct fuel as [|f]; [simpl in Hf; lia|].
    rewrite layout_cons. cbn [extract_loop skipn].
    rewrite (find_open_tag _ _ H0), Nat.add_0_l, skipn_app, skipn_all, Nat.sub_diag.
    cbn [app skipn]. rewrite (find_close_tag _ _ Hi).
    unfold slice.
    replace (List.length t0 + (11 + List.length inner) - (List.length t0 + 11))
      with (List.length inner) by lia.
    replace (List.length t0 + (11 + List.length inner) + 12)
      with (List.length ((t0 ++ open_tag) ++ inner ++ close_tag)) by
      (rewrite !length_app; simpl; lia).
    replace (List.length t0 + 11) with (List.length (t0 ++ open_tag))
      by (rewrite length_app; reflexivity).
    rewrite (app_assoc t0 open_tag), skipn_app_exact, firstn_app_exact.
    rewrite extract_loop_shift, (app_assoc inner close_tag),
      (app_assoc (t0 ++ open_tag) (inner ++ close_tag)), skipn_app_exact.
    rewrite (IH t1 f Ht1 Hbs) by (simpl in Hf; lia).
    simpl. destruct (tool_call_of inner); reflexivity.
Qed.

Lemma occurs_length (p t : text) (i : nat) :
  p <> [] -> occurs p t i -> i + List.length p <= List.length t.
Proof.
  intros Hp H. apply starts_with_length in H. rewrite length_skipn in H.
  destruct p; [congruence|]. simpl in *. lia.
Qed.

Lemma occurs_app (p r u : text) (i : nat) :
  p <> [] -> occurs p r i -> occurs p (r ++ u) i.
Proof.
  intros Hp H. pose proof (occurs_length _ _ _ Hp H) as L. unfold occurs in *.
  rewrite skipn_app, (proj2 (Nat.sub_0_le i (List.length r))) by lia.
  apply starts_with_app. exact H.
Qed.

Lemma find_app (p r u : text) (i : nat) :
  p <> [] -> find p r = Some i -> find p (r ++ u) = Some i.
Proof.
  intros Hp H. apply find_Some in H as [H1 H2]. apply find_Some.
  pose proof (occurs_length _ _ _ Hp H1) as L.
  split; [apply occurs_app; auto|]. intros j Hj Hocc. apply (H2 j Hj).
  unfold occurs in *. rewrite skipn_app, (proj2 (Nat.sub_0_le j (List.length r))) in Hocc
    by lia.
  rewrite starts_with_app_long in Hocc; [exact Hocc|]. rewrite length_skipn. lia.
Qed.

Lemma extract_loop_fuel (f f' : nat) (t : text) :
  List.length t < f -> List.length t < f' -> extract_loop f t 0 = extract_loop f' t 0.
Proof.
  revert f' t; induction f as [|g IH]; intros f' t Hf Hf'; [lia|].
  destruct f' as [|g']; [lia|]. cbn [extract_loop skipn].
  destruct (find open_tag t) as [start|] eqn:F1; [|reflexivity].
  destruct (find close_tag (skipn (0 + start) t)) as [e|] eqn:F2; [|reflexivity].
  apply find_Some in F1 as [F1 _]. apply find_Some in F2 as [F2 _].
  apply (occurs_length _ _ _ close_tag_nonempty) in F2.
  rewrite length_skipn in F2. simpl in F2.
  rewrite (extract_loop_shift g), (extract_loop_shift g'), (IH g'); [reflexivity| |];
    rewrite length_skipn; lia.
Qed.

Lemma extract_loop_prefix (f : nat) (r u : text) :
  exists l, extract_loop f (r ++ u) 0 = extract_loop f r 0 ++ l.
Proof.
  revert r; induction f as [|g IH]; intros r; [exists []; reflexivity|].
  cbn [extract_loop skipn].
  destruct (find open_tag r) as [start|] eqn:F1; [|eexists; reflexivity].
  rewrite (find_app _ _ _ _ open_tag_nonempty F1).
  pose proof F1 as O1. apply find_Some in O1 as [O1 _].
  apply (occurs_length _ _ _ open_tag_nonempty) in O1.
  rewrite Nat.add_0_l in *.
  destruct (find close_tag (skipn start r)) as [e|] eqn:F2; [|eexists; reflexivity].
  pose proof F2 as O2. apply find_Some in O2 as [O2 _].
  apply (occurs_length _ _ _ close_tag_nonempty) in O2.
  rewrite length_skipn in O2. simpl in O2.
  rewrite skipn_app, (proj2 (Nat.sub_0_le start (List.length r))) by lia.
  rewrite (find_app _ _ _ _ close_tag_nonempty F2).
  assert (Hs : slice (start + 11) (start + e) (r ++ u) = slice (start + 11) (start + e) r).
  { unfold slice. rewrite skipn_app, firstn_app, length_skipn.
    replace (start + e - (start + 11) - (List.length r - (start + 11))) with 0 by lia.
    simpl. apply app_nil_r. }
  rewrite Hs, (extract_loop_shift g (r ++ u)), (extract_loop_shift g r).
  rewrite skipn_app, (proj2 (Nat.sub_0_le (start + e + 12) (List.length r))) by lia.
  destruct (IH (skipn (start + e + 12) r)) as [l Hl]. simpl skipn. rewrite Hl.
  exists l. destruct (tool_call_of _); reflexivity.
Qed.

Lemma extract_prefix_nil (r u : text) :
  extract_all_tool_calls_from_xml (r ++ u) = [] -> extract_all_tool_calls_from_xml r = [].
Proof.
  unfold extract_all_tool_calls_from_xml. intros H.
  rewrite (extract_loop_fuel (S (List.length r)) (S (List.length (r ++ u)))) by
    (rewrite ?length_app; lia).
  destruct (extract_loop_prefix (S (List.length (r ++ u))) r u) as [l Hl].
  rewrite H in Hl. destruct (extract_loop _ r 0); [reflexivity|discriminate].
Qed.

Lemma starts_with_split (p u : text) :
  starts_with p u = true -> u = p ++ skipn (List.length p) u.
Proof.
  revert u; induction p as [|c p IH]; intros [|b u] H; simpl in *; try discriminate;
    auto.
  apply andb_prop in H as [H1 H2]. apply chr_eqb_true in H1. subst.
  f_equal. apply IH. exact H2.
Qed.

(** The first occurrence of a pattern splits a text around it. *)
Lemma find_split (p t : text) (i : nat) :
  p <> [] -> find p t = Some i ->
  t = firstn i t ++ p ++ skipn (List.length p) (skipn i t)
  /\ contains p (firstn i t) = false.
Proof.
  intros Hp F. apply find_Some in F as [F1 F2]. split.
  - rewrite <- (starts_with_split _ _ F1). symmetry. apply firstn_skipn.
  - apply contains_false. intros j Hj.
    pose proof (occurs_length _ _ _ Hp Hj) as L.
    rewrite length_firstn in L.
    apply (F2 j); [destruct p; [congruence|]; simpl in L; lia|].
    rewrite <- (firstn_skipn i t). apply occurs_app; auto.
Qed.

Lemma extract_loop_step (f : nat) (a inner rest : text) :
  contains open_tag a = false -> contains close_tag inner = false ->
  extract_loop (S f) (a ++ open_tag ++ inner ++ close_tag ++ rest) 0
  = option_list (tool_call_of inner) ++ extract_loop f rest 0.
Proof.
  intros H0 Hi. cbn [extract_loop skipn].
  rewrite (find_open_tag _ _ H0), Nat.add_0_l, skipn_app_exact.
  rewrite (find_close_tag _ _ Hi).
  unfold slice.
  replace (List.length a + (11 + List.length inner) - (List.length a + 11))
    with (List.length inner) by lia.
  replace (List.length a + (11 + List.length inner) + 12)
    with (List.length ((a ++ open_tag) ++ inner ++ close_tag)) by
    (rewrite !length_app; simpl; lia).
  replace (List.length a + 11) with (List.length (a ++ open_tag))
    by (rewrite length_app; reflexivity).
  rewrite (app_assoc a open_tag), skipn_app_exact, firstn_app_exact.
  rewrite extract_loop_shift, (app_assoc inner close_tag),
    (app_assoc (a ++ open_tag) (inner ++ close_tag)), skipn_app_exact.
  destruct (tool_call_of inner); reflexivity.
Qed.

Lemma extract_loop_unclosed (f : nat) (a r : text) :
  contains open_tag a = false -> contains close_tag r = false ->
  extract_loop (S f) (a ++ open_tag ++ r) 0 = [].
Proof.
  intros H0 Hr. cbn [extract_loop skipn].
  rewrite (find_open_tag _ _ H0), Nat.add_0_l, skipn_app_exact.
  rewrite (proj2 (find_None _ _) (no_close_in_open r Hr)). reflexivity.
Qed.

(** A region in front of the rest of the buffer. *)
Lemma extract_region (a inner rest : text) :
  contains open_tag a = false -> contains close_tag inner = false ->
  extract_all_tool_calls_from_xml (a ++ open_tag ++ inner ++ close_tag ++ rest)
  = option_list (tool_call_of inner) ++ extract_all_tool_calls_from_xml rest.
Proof.
  intros H0 Hi. unfold extract_all_tool_calls_from_xml at 1.
  rewrite extract_loop_step by auto. f_equal.
  apply extract_loop_fuel; rewrite ?length_app; simpl; lia.
Qed.

(** Every extracted call is the call of a region body that parses. *)
Lemma extract_loop_parsed (f : nat) (t : text) (ss : nat) (call : text * text) :
  In call (extract_loop f t ss) -> exists inner, tool_call_of inner = Some call.
Proof.
  revert ss; induction f as [|f IH]; intros ss; simpl; [tauto|].
  destruct (find open_tag _) as [st|]; [|intros []].
  destruct (find close_tag _) as [e|]; [|intros []].
  destruct (tool_call_of _) as [c|] eqn:E; [intros [<-|H]; eauto|eauto].
Qed.

Lemma extract_parsed (t : text) (call : text * text) :
  In call (extract_all_tool_calls_from_xml t) ->
  exists inner, from_str inner <> None /\ tool_call_of inner = Some call.
Proof.
  intros H. destruct (extract_loop_parsed _ _ _ _ H) as [inner E]. exists inner.
  split; [|exact E]. unfold tool_call_of in E. destruct (from_str inner); congruence.
Qed.

(** C1 (amended).  For every buffer, the scanner pairs the first
    [<tool_call>] with the first [</tool_call>] after it, parses the text
    between them, and resumes after that closing tag:
    - every buffer either has no opening tag, or splits at its first
      opening tag into [a ++ <tool_call> ++ r], where [r] has no closing tag
      or splits at its first closing tag into [inner ++ </tool_call> ++ rest];
    - with no opening tag, nothing is extracted;
    - with an opening tag and no closing tag after it, nothing is extracted;
    - otherwise the region [inner] contributes one [(name, arguments-json)]
      entry if it parses as a JSON object with a string [name] and an object
      [arguments], and nothing if not, and the scan goes on with [rest];
    - so for a buffer made of text without opening tags and blocks
      [<tool_call>inner</tool_call>] whose inner text has no closing tag, the
      result has one entry per well-formed block, in document order.
    This holds whatever [serde_json] accepts. *)
Theorem extract_all_tool_calls_blocks :
  (forall t : text,
     contains open_tag t = false
     \/ exists a r, t = a ++ open_tag ++ r /\ contains open_tag a = false
          /\ (contains close_tag r = false
              \/ exists inner rest, r = inner ++ close_tag ++ rest
                   /\ contains close_tag inner = false))
  /\ (forall t : text,
        contains open_tag t = false -> extract_all_tool_calls_from_xml t = [])
  /\ (forall a r : text,
        contains open_tag a = false -> contains close_tag r = false ->
        extract_all_tool_calls_from_xml (a ++ open_tag ++ r) = [])
  /\ (forall a inner rest : text,
        contains open_tag a = false -> contains close_tag inner = false ->
        extract_all_tool_calls_from_xml (a ++ open_tag ++ inner ++ close_tag ++ rest)
        = option_list (tool_call_of inner) ++ extract_all_tool_calls_from_xml rest)
  /\ (forall (t0 : text) (blocks : list (text * text)),
        contains open_tag t0 = false -> clean_blocks blocks ->
        extract_all_tool_calls_from_xml (layout t0 blocks)
        = flat_map (fun b => option_list (tool_call_of (fst b))) blocks).
Proof.
  split; [|split; [|split; [|split]]].
  - intros t. unfold contains at 1.
    destruct (find open_tag t) as [i|] eqn:F; [right|left; reflexivity].
    destruct (find_split _ _ _ open_tag_nonempty F) as [E Ha].
    exists (firstn i t), (skipn (List.length open_tag) (skipn i t)).
    split; [exact E|]. split; [exact Ha|].
    set (r := skipn (List.length open_tag) (skipn i t)).
    unfold contains at 1.
    destruct (find close_tag r) as [k|] eqn:G; [right|left; reflexivity].
    destruct (find_split _ _ _ close_tag_nonempty G) as [E' Hi].
    exists (firstn k r), (skipn (List.length close_tag) (skipn k r)). auto.
  - intros t H. unfold extract_all_tool_calls_from_xml. cbn [extract_loop skipn].
    rewrite (proj2 (find_None _ _) (proj1 (contains_false _ _) H)). reflexivity.
  - intros a r H0 Hr. apply extract_loop_unclosed; auto.
  - apply extract_region.
  - intros t0 blocks H0 Hb. apply extract_loop_layout; auto.
    pose proof (layout_length t0 blocks). lia.
Qed.

End ScannerProps.

Lemma extract_all_tool_calls_blocks_witness :
  contains open_tag (lit "Let me check. ") = false
  /\ clean_blocks [(qlit "{'name':'time_now','arguments':{}}", lit " and ");
                   (qlit "{'name': oops", lit " then ");
                   (qlit "{'name':'b','arguments':{'x':1}}", lit ".")]
  /\ extract_all_tool_calls_from_xml (serde := demo_serde)
       (layout (lit "Let me check. ")
          [(qlit "{'name':'time_now','arguments':{}}", lit " and ");
           (qlit "{'name': oops", lit " then ");
           (qlit "{'name':'b','arguments':{'x':1}}", lit ".")])
     = [(lit "time_now", lit "{}"); (lit "b", qlit "{'x':1}")].
Proof.
  assert (H0 : contains open_tag (lit "Let me check. ") = false) by (vm_compute; reflexivity).
  assert (Hb : clean_blocks [(qlit "{'name':'time_now','arguments':{}}", lit " and ");
                             (qlit "{'name': oops", lit " then ");
                             (qlit "{'name':'b','arguments':{'x':1}}", lit ".")]).
  { unfold clean_blocks. repeat constructor. }
  split; [exact H0|]. split; [exact Hb|].
  destruct (extract_all_tool_calls_blocks (serde := demo_serde)) as (_ & _ & _ & _ & Hl).
  rewrite (Hl _ _ H0 Hb). vm_compute. reflexivity.
Defined.

(** C1 counterexample: the buffer contains one well-formed block, preceded
    by a stray opening tag; the region taken is from the stray tag to the
    block's closing tag, which is not JSON, and nothing is extracted. *)
Lemma extract_all_tool_calls_stray_open :
  tool_call_of (serde := demo_serde) (qlit "{'name':'time_now','arguments':{}}")
  = Some (lit "time_now", lit "{}")
  /\ extract_all_tool_calls_from_xml (serde := demo_serde)
       (open_tag ++ block (qlit "{'name':'time_now','arguments':{}}")) = [].
Proof. split; vm_compute; reflexivity. Qed.

(** ** Turn invariants *)

Lemma text_eqb_eq (a b : text) : text_eqb a b = true <-> a = b.
Proof.
  revert b; induction a as [|x a IH]; intros [|y b]; simpl; split; intros H;
    try congruence; try reflexivity.
  - apply andb_prop in H as [H1 H2]. apply chr_eqb_true in H1. apply IH in H2. congruence.
  - injection H as -> ->. rewrite chr_eqb_refl. simpl. apply IH. reflexivity.
Qed.

Lemma existsb_text_eqb (x : text) (l : list text) :
  existsb (text_eqb x) l = true <-> In x l.
Proof.
  rewrite existsb_exists. split.
  - intros (y & Hy & E). apply text_eqb_eq in E. subst. exact Hy.
  - intros H. exists x. split; [exact H|]. apply text_eqb_eq. reflexivity.
Qed.

Lemma contains_app (p r u : text) :
  p <> [] -> contains p r = true -> contains p (r ++ u) = true.
Proof.
  unfold contains. intros Hp.
  destruct (find p r) as [i|] eqn:F; [|discriminate]. intros _.
  rewrite (find_app _ _ _ _ Hp F). reflexivity.
Qed.

Lemma contains_middle (p r u : text) :
  p <> [] -> contains p (r ++ p ++ u) = true.
Proof.
  intros Hp. unfold contains.
  destruct (find p (r ++ p ++ u)) eqn:F; [reflexivity|].
  exfalso. apply find_None with (j := List.length r) in F. apply F.
  unfold occurs. rewrite skipn_app_exact. apply starts_with_self.
Qed.

Lemma contains_app_r (p r u : text) :
  contains p u = true -> contains p (r ++ u) = true.
Proof.
  unfold contains. destruct (find p u) as [i|] eqn:F; [|discriminate]. intros _.
  apply find_Some in F as [F _].
  destruct (find p (r ++ u)) eqn:G; [reflexivity|].
  exfalso. apply find_None with (j := i + List.length r) in G. apply G.
  unfold occurs in *. rewrite <- skipn_skipn, skipn_app_exact. exact F.
Qed.

Lemma tool_response_text_tag (r : text) :
  contains tool_response_tag (tool_response_text r) = true.
Proof.
  unfold tool_response_text. change ([nl] ++ lit "<tool_response>" ++ ([nl] ++ r ++ [nl]
    ++ lit "</tool_response>")) with ([nl] ++ tool_response_tag ++ ([nl] ++ r ++ [nl]
    ++ lit "</tool_response>")).
  apply contains_middle. discriminate.
Qed.

Lemma error_response_text_tag (e : text) :
  contains tool_response_tag (error_response_text e) = true.
Proof.
  unfold error_response_text. change ([nl] ++ lit "<tool_response>" ++ ([nl] ++ lit "Error: "
    ++ e ++ [nl] ++ lit "</tool_response>")) with ([nl] ++ tool_response_tag ++ ([nl]
    ++ lit "Error: " ++ e ++ [nl] ++ lit "</tool_response>")).
  apply contains_middle. discriminate.
Qed.

Section TurnProps.

Context `{serde : SerdeJson}.

Variable call_mcp_tool :
  list (text * text) -> text -> option (list (text * json)) -> result text text.
Variable create_stream : request -> result (list stream_item) text.
Variable load_session : text -> result (list ChatMessage) text.
Variable tools_info : text.

Lemma init_inv : turn_inv init_state.
Proof. split; [reflexivity|]. split; [constructor|]. discriminate. Qed.

Lemma dispatch_inv (st : turn_state) (call : text * text) :
  turn_inv st -> turn_inv (dispatch call_mcp_tool st call).
Proof.
  destruct call as [fn_name fn_args]. intros (He & Hnd & Hc). unfold dispatch.
  destruct (existsb _ _) eqn:Ex; [split; auto|].
  assert (Hn : ~ In (signature (fn_name, fn_args)) st.(executed_tools)).
  { intros Hin. apply existsb_text_eqb in Hin. unfold signature in Hin.
    cbn [fst snd] in Hin. congruence. }
  assert (Hnd' : NoDup (executed_tools st ++ [fn_name ++ lit ":" ++ fn_args])).
  { apply NoDup_app; [exact Hnd | repeat constructor; simpl; tauto |].
    intros x Hx [<-|[]]. exact (Hn Hx). }
  destruct (call_mcp_tool _ _ _) as [r|e]; split; cbn [executed_tools invoked];
    try (rewrite map_app, <- He; reflexivity);
    (split; [exact Hnd'|]); intros _; cbn [full_response];
    apply contains_app_r; auto using tool_response_text_tag, error_response_text_tag.
Qed.

Lemma fold_dispatch_inv (calls : list (text * text)) (st : turn_state) :
  turn_inv st -> turn_inv (fold_left (dispatch call_mcp_tool) calls st).
Proof.
  revert st; induction calls as [|c calls IH]; intros st H; simpl; auto.
  apply IH, dispatch_inv, H.
Qed.

Lemma process_choice_inv (st : turn_state) (ch : choice) :
  turn_inv st -> turn_inv (process_choice call_mcp_tool st ch).
Proof.
  intros (He & Hnd & Hc). unfold process_choice.
  destruct (delta_content ch) as [c|]; [|split; auto].
  apply fold_dispatch_inv. split; [exact He|]. split; [exact Hnd|].
  cbn [needs_continuation full_response]. intros Hn.
  apply contains_app; [discriminate|]. auto.
Qed.

Lemma fold_process_choice_inv (chs : list choice) (st : turn_state) :
  turn_inv st -> turn_inv (fold_left (process_choice call_mcp_tool) chs st).
Proof.
  revert st; induction chs as [|ch chs IH]; intros st H; simpl; auto.
  apply IH, process_choice_inv, H.
Qed.

Lemma consume_stream_inv (items : list stream_item) (st : turn_state) :
  turn_inv st -> turn_inv (consume_stream call_mcp_tool st items).
Proof.
  revert st; induction items as [|[c|err] items IH]; intros st H; simpl.
  - exact H.
  - apply IH, fold_process_choice_inv, H.
  - destruct H as (He & Hnd & Hc). split; [exact He|]. split; [exact Hnd|]. exact Hc.
Qed.

(** Every step only appends to [full_response]. *)
Lemma dispatch_extends (st : turn_state) (call : text * text) :
  exists s, (dispatch call_mcp_tool st call).(full_response) = st.(full_response) ++ s.
Proof.
  destruct call as [n a]. unfold dispatch.
  destruct (existsb _ _); [exists []; rewrite app_nil_r; reflexivity|].
  destruct (call_mcp_tool _ _ _); eexists; reflexivity.
Qed.

Lemma fold_dispatch_extends (calls : list (text * text)) (st : turn_state) :
  exists s, (fold_left (dispatch call_mcp_tool) calls st).(full_response)
            = st.(full_response) ++ s.
Proof.
  revert st; induction calls as [|c calls IH]; intros st; simpl.
  - exists []. rewrite app_nil_r. reflexivity.
  - destruct (dispatch_extends st c) as [s1 H1].
    destruct (IH (dispatch call_mcp_tool st c)) as [s2 H2].
    exists (s1 ++ s2). rewrite H2, H1, app_assoc. reflexivity.
Qed.

Lemma fold_process_choice_extends (chs : list choice) (st : turn_state) :
  exists s, (fold_left (process_choice call_mcp_tool) chs st).(full_response)
            = st.(full_response) ++ s.
Proof.
  revert st; induction chs as [|ch chs IH]; intros st; simpl.
  - exists []. rewrite app_nil_r. reflexivity.
  - assert (H1 : exists s1, (process_choice call_mcp_tool st ch).(full_response)
                            = st.(full_response) ++ s1).
    { unfold process_choice. destruct (delta_content ch) as [c|].
      - match goal with
        | |- context [fold_left (dispatch call_mcp_tool) ?calls ?st0] =>
            destruct (fold_dispatch_extends calls st0) as [s0 H0]; rewrite H0
        end.
        exists (c ++ s0). simpl. rewrite app_assoc. reflexivity.
      - exists []. rewrite app_nil_r. reflexivity. }
    destruct H1 as [s1 H1]. destruct (IH (process_choice call_mcp_tool st ch)) as [s2 H2].
    exists (s1 ++ s2). rewrite H2, H1, app_assoc. reflexivity.
Qed.

Lemma consume_stream_extends (items : list stream_item) (st : turn_state) :
  exists s, (consume_stream call_mcp_tool st items).(full_response) = st.(full_response) ++ s.
Proof.
  revert st; induction items as [|[c|err] items IH]; intros st; simpl.
  - exists []. rewrite app_nil_r. reflexivity.
  - destruct (fold_process_choice_extends c st) as [s1 H1].
    destruct (IH (fold_left (process_choice call_mcp_tool) c st)) as [s2 H2].
    exists (s1 ++ s2). rewrite H2, H1, app_assoc. reflexivity.
  - exists []. rewrite app_nil_r. reflexivity.
Qed.


(** When no tool call can be extracted, the stream only accumulates text. *)
Lemma process_choice_no_calls (st : turn_state) (ch : choice) :
  extract_all_tool_calls_from_xml (st.(full_response) ++ choice_text ch) = [] ->
  let st' := process_choice call_mcp_tool st ch in
  st'.(full_response) = st.(full_response) ++ choice_text ch
  /\ st'.(invoked) = st.(invoked)
  /\ st'.(executed_tools) = st.(executed_tools)
  /\ st'.(needs_continuation) = st.(needs_continuation).
Proof.
  unfold process_choice, choice_text. destruct (delta_content ch) as [c|]; simpl.
  - intros H. rewrite H. simpl. auto.
  - rewrite app_nil_r. auto.
Qed.

Lemma choices_no_calls (chs : list choice) (st : turn_state) (u : text) :
  extract_all_tool_calls_from_xml (st.(full_response) ++ chunk_text chs ++ u) = [] ->
  let st' := fold_left (process_choice call_mcp_tool) chs st in
  st'.(full_response) = st.(full_response) ++ chunk_text chs
  /\ st'.(invoked) = st.(invoked)
  /\ st'.(executed_tools) = st.(executed_tools)
  /\ st'.(needs_continuation) = st.(needs_continuation).
Proof.
  revert st; induction chs as [|ch chs IH]; intros st H; cbn [fold_left].
  - simpl. rewrite app_nil_r. auto.
  - change (chunk_text (ch :: chs)) with (choice_text ch ++ chunk_text chs) in *.
    assert (H1 : extract_all_tool_calls_from_xml (st.(full_response) ++ choice_text ch) = []).
    { apply (extract_prefix_nil _ (chunk_text chs ++ u)).
      rewrite <- app_assoc. rewrite <- app_assoc in H. exact H. }
    destruct (process_choice_no_calls st ch H1) as (F & I & E & N).
    destruct (IH (process_choice call_mcp_tool st ch)) as (F' & I' & E' & N').
    { rewrite F, <- !app_assoc. rewrite <- !app_assoc in H. exact H. }
    rewrite F', I', E', N', F, <- app_assoc. auto.
Qed.

Lemma consume_stream_no_calls (items : list stream_item) (st : turn_state) :
  extract_all_tool_calls_from_xml (st.(full_response) ++ stream_text items) = [] ->
  let st' := consume_stream call_mcp_tool st items in
  st'.(full_response) = st.(full_response) ++ stream_text items
  /\ st'.(invoked) = st.(invoked)
  /\ st'.(needs_continuation) = st.(needs_continuation).
Proof.
  revert st; induction items as [|[c|err] items IH]; intros st H; simpl.
  - rewrite app_nil_r. auto.
  - destruct (choices_no_calls c st (stream_text items)) as (F & I & E & N); [exact H|].
    destruct (IH (fold_left (process_choice call_mcp_tool) c st)) as (F' & I' & N').
    { rewrite F, <- app_assoc. exact H. }
    rewrite F', I', N', F, I, N, <- app_assoc. auto.
  - rewrite app_nil_r. auto.
Qed.


(** C3: within a turn no signature (name and argument text) is handed to
    the tool invoker twice: the signature is recorded in [executed_tools]
    as part of the same step that invokes the tool, and an extraction whose
    signature is already recorded leaves the turn state untouched. *)
Theorem tool_signature_at_most_once
    (model_name message : text) (session_id : option text)
    (include_history : option bool) (system_prompt : option text)
    (seed : option Z) (max_tokens max_completion_tokens : option N) :
  NoDup (map signature
    (chat_with_loaded_model_streaming call_mcp_tool create_stream load_session tools_info
       model_name message session_id include_history system_prompt seed max_tokens
       max_completion_tokens).(tool_invocations))
  /\ (forall st call, In (signature call) st.(executed_tools) ->
        dispatch call_mcp_tool st call = st).
Proof.
  split.
  - unfold chat_with_loaded_model_streaming.
    destruct (create_stream _) as [items|e]; [|constructor].
    destruct (consume_stream_inv items init_state init_inv) as (He & Hnd & _).
    destruct (needs_continuation _ && check_if_continuation_needed _);
      [destruct (continue_conversation_after_tools _ _ _ _ _ _ _ _) as [[creq cres] cev];
       destruct cres|];
      simpl; rewrite <- He; exact Hnd.
  - intros st [n a] Hin. unfold dispatch.
    apply existsb_text_eqb in Hin. unfold signature in Hin. cbn [fst snd] in Hin.
    rewrite Hin. reflexivity.
Qed.

(** C5: a dispatched call (signature not yet executed) appends exactly
    ["\n<tool_response>\n" ++ R ++ "\n</tool_response>"] when the invoker
    returns [Ok R], exactly ["\n<tool_response>\nError: " ++ M ++
    "\n</tool_response>"] when it returns [Err M], emits the same text as a
    token, and sets [needs_continuation]; the turn goes on in both cases. *)
Theorem dispatch_tool_response (st : turn_state) (fn_name fn_args : text) :
  ~ In (signature (fn_name, fn_args)) st.(executed_tools) ->
  let st' := dispatch call_mcp_tool st (fn_name, fn_args) in
  st'.(needs_continuation) = true
  /\ st'.(invoked) = st.(invoked) ++ [(fn_name, fn_args)]
  /\ match call_mcp_tool st.(invoked) fn_name (args_map_of fn_args) with
     | Ok R =>
         let t := [nl] ++ lit "<tool_response>" ++ [nl] ++ R ++ [nl]
                  ++ lit "</tool_response>" in
         st'.(full_response) = st.(full_response) ++ t
         /\ st'.(emitted) = st.(emitted) ++ [ToolCallEvent fn_name fn_args R; ChatToken t false]
     | Err M =>
         let t := [nl] ++ lit "<tool_response>" ++ [nl] ++ lit "Error: " ++ M ++ [nl]
                  ++ lit "</tool_response>" in
         st'.(full_response) = st.(full_response) ++ t
         /\ st'.(emitted) = st.(emitted) ++ [ChatToken t false]
     end.
Proof.
  intros Hn. unfold dispatch.
  destruct (existsb _ _) eqn:Ex.
  { exfalso. apply Hn. apply existsb_text_eqb. exact Ex. }
  destruct (call_mcp_tool _ _ _); simpl; auto.
Qed.

(** C9: every request sent to the backend in a turn (the primary one and
    the continuation) carries [max_tokens] = [max(requested, 100)] when the
    caller gives one, and 1000 otherwise. *)
Theorem max_tokens_sent
    (model_name message : text) (session_id : option text)
    (include_history : option bool) (system_prompt : option text)
    (seed : option Z) (max_tokens max_completion_tokens : option N) :
  Forall (fun r => r.(req_max_tokens)
                   = match max_tokens with Some m => N.max m 100 | None => 1000%N end)
    (chat_with_loaded_model_streaming call_mcp_tool create_stream load_session tools_info
       model_name message session_id include_history system_prompt seed max_tokens
       max_completion_tokens).(requests).
Proof.
  assert (Hm : effective_max_tokens max_tokens
               = match max_tokens with Some m => N.max m 100 | None => 1000%N end)
    by (destruct max_tokens; reflexivity).
  assert (Hc : forall sys prev resp,
             (fst (fst (continue_conversation_after_tools create_stream sys prev resp
                          model_name seed max_tokens max_completion_tokens))).(req_max_tokens)
             = effective_max_tokens max_tokens).
  { intros. unfold continue_conversation_after_tools.
    destruct (create_stream _); [destruct (consume_continuation _ _)|]; reflexivity. }
  unfold chat_with_loaded_model_streaming.
  destruct (create_stream _) as [items|e]; [|repeat constructor; exact Hm].
  destruct (needs_continuation _ && check_if_continuation_needed _);
    [|repeat constructor; exact Hm].
  match goal with
  | |- context [continue_conversation_after_tools ?cs ?a ?b ?c ?d ?e ?f ?g] =>
      specialize (Hc a b c);
      destruct (continue_conversation_after_tools cs a b c d e f g) as [[creq cres] cev]
  end.
  simpl in Hc. destruct cres; repeat constructor; try exact Hm; rewrite Hc; exact Hm.
Qed.


Lemma Forall_removelast {A} (P : A -> Prop) (l : list A) :
  Forall P l -> Forall P (removelast l).
Proof.
  induction l as [|a l IH]; intros H; [constructor|].
  inversion H; subst. destruct l as [|b l]; [constructor|].
  simpl. constructor; auto.
Qed.

Lemma drop_duplicate_last_Forall (P : ChatMessage -> Prop) (message : text) (h : list ChatMessage) :
  Forall P h -> Forall P (drop_duplicate_last message h).
Proof.
  intros H. unfold drop_duplicate_last.
  destruct (rev h) as [|m r]; [exact H|].
  destruct (_ && _); [apply Forall_removelast|]; exact H.
Qed.

Lemma history_to_request_ua (msg : ChatMessage) :
  is_user_or_assistant msg = true ->
  history_to_request msg = [history_entry_to_request msg].
Proof.
  unfold is_user_or_assistant, history_to_request, history_entry_to_request.
  destruct (text_eqb (role msg) (lit "user")); [reflexivity|].
  simpl. intros ->. reflexivity.
Qed.

(** C10: with history requested for an existing session, the messages of
    the request are the system message, then the session's [user] and
    [assistant] entries in their order (all other roles are dropped; a last
    remaining entry that is a [user] message equal to the current message
    is dropped too), then the current user message. *)
Theorem request_messages_with_history
    (model_name message session_id : text) (msgs : list ChatMessage)
    (system_prompt : option text) (seed : option Z)
    (max_tokens max_completion_tokens : option N) :
  load_session session_id = Ok msgs ->
  exists rest,
    (chat_with_loaded_model_streaming call_mcp_tool create_stream load_session tools_info
       model_name message (Some session_id) (Some true) system_prompt seed max_tokens
       max_completion_tokens).(requests) = 
    {| req_model := model_name;
       req_messages :=
         [SystemMsg (system_message_of tools_info system_prompt)]
         ++ map history_entry_to_request
              (drop_duplicate_last message (filter is_user_or_assistant msgs))
         ++ [UserMsg message];
       req_stream := true; req_seed := seed;
       req_max_tokens := effective_max_tokens max_tokens;
       req_max_completion_tokens := max_completion_tokens |} :: rest.
Proof.
  intros Hl.
  assert (Hm : build_messages load_session (system_message_of tools_info system_prompt)
                 message (Some session_id) (Some true)
               = [SystemMsg (system_message_of tools_info system_prompt)]
                 ++ map history_entry_to_request
                      (drop_duplicate_last message (filter is_user_or_assistant msgs))
                 ++ [UserMsg message]).
  { unfold build_messages, get_conversation_history. rewrite Hl. simpl unwrap_or.
    cbv iota beta. f_equal. f_equal.
    assert (HF : Forall (fun m => is_user_or_assistant m = true)
                   (drop_duplicate_last message (filter is_user_or_assistant msgs))).
    { apply drop_duplicate_last_Forall. apply Forall_forall. intros x Hx.
      apply filter_In in Hx. apply Hx. }
    induction HF as [|x l Hx _ IH]; [reflexivity|].
    simpl. rewrite (history_to_request_ua x Hx). simpl. f_equal. exact IH. }
  unfold chat_with_loaded_model_streaming, primary_request, build_request. rewrite Hm.
  destruct (create_stream _) as [items|e]; [|eexists; reflexivity].
  destruct (_ && _); [destruct (continue_conversation_after_tools _ _ _ _ _ _ _ _)
                        as [[creq []] cev]|]; eexists; reflexivity.
Qed.


Lemma run_no_continuation
    (model_name message : text) (session_id : option text)
    (include_history : option bool) (system_prompt : option text)
    (seed : option Z) (max_tokens max_completion_tokens : option N)
    (items : list stream_item) :
  let req := primary_request load_session tools_info model_name message session_id
               include_history system_prompt seed max_tokens max_completion_tokens in
  create_stream req = Ok items ->
  (consume_stream call_mcp_tool init_state items).(needs_continuation) = false ->
  let r := chat_with_loaded_model_streaming call_mcp_tool create_stream load_session
             tools_info model_name message session_id include_history system_prompt seed
             max_tokens max_completion_tokens in
  r.(outcome) = Ok (consume_stream call_mcp_tool init_state items).(full_response)
  /\ r.(requests) = [req]
  /\ r.(tool_invocations) = (consume_stream call_mcp_tool init_state items).(invoked).
Proof.
  intros req Hc Hn. unfold chat_with_loaded_model_streaming. fold req. rewrite Hc.
  cbv zeta. rewrite Hn. simpl. auto.
Qed.

(** C6: a primary stream of chunks only (ending with a chunk that has a
    finish reason) whose text holds no extractable tool call triggers no
    tool call and no continuation, and the turn returns the concatenation
    of all delta texts in arrival order. *)
Theorem plain_stream_no_continuation
    (model_name message : text) (session_id : option text)
    (include_history : option bool) (system_prompt : option text)
    (seed : option Z) (max_tokens max_completion_tokens : option N)
    (items : list stream_item) (last_chunk : chunk) (fin : choice) :
  let req := primary_request load_session tools_info model_name message session_id
               include_history system_prompt seed max_tokens max_completion_tokens in
  create_stream req = Ok items ->
  forallb is_ok items = true ->
  last items (Ok []) = Ok last_chunk -> In fin last_chunk -> fin.(finish_reason) <> None ->
  extract_all_tool_calls_from_xml (stream_text items) = [] ->
  let r := chat_with_loaded_model_streaming call_mcp_tool create_stream load_session
             tools_info model_name message session_id include_history system_prompt seed
             max_tokens max_completion_tokens in
  r.(outcome) = Ok (List.concat (map (fun i => match i with
                                              | Ok c => List.concat (map choice_text c)
                                              | Err _ => []
                                              end) items))
  /\ r.(requests) = [req]
  /\ r.(tool_invocations) = [].
Proof.
  intros req Hc Hok _ _ _ Hx.
  destruct (consume_stream_no_calls items init_state Hx) as (F & I & N).
  destruct (run_no_continuation model_name message session_id include_history system_prompt
              seed max_tokens max_completion_tokens items Hc N) as (O & R & T).
  split; [|split; [exact R | rewrite T; exact I]].
  rewrite O, F. f_equal. simpl. clear -Hok.
  induction items as [|[c|e] items IH]; simpl in *; [reflexivity| |discriminate].
  rewrite IH by exact Hok. unfold chunk_text. rewrite flat_map_concat_map. reflexivity.
Qed.


(** The calls handed to the invoker satisfy any property every extracted
    call has. *)
Lemma dispatch_invoked (P : text * text -> Prop) (st : turn_state) (call : text * text) :
  P call -> Forall P st.(invoked) -> Forall P (dispatch call_mcp_tool st call).(invoked).
Proof.
  destruct call as [n a]. intros Hc Hs. unfold dispatch.
  destruct (existsb _ _); [exact Hs|].
  destruct (call_mcp_tool _ _ _); cbn [invoked]; apply Forall_app; split; auto.
Qed.

Lemma fold_dispatch_invoked (P : text * text -> Prop) (calls : list (text * text))
    (st : turn_state) :
  Forall P calls -> Forall P st.(invoked) ->
  Forall P (fold_left (dispatch call_mcp_tool) calls st).(invoked).
Proof.
  revert st; induction calls as [|c calls IH]; intros st Hc Hs; simpl; auto.
  inversion Hc; subst. apply IH; auto. apply dispatch_invoked; auto.
Qed.

Lemma consume_stream_invoked (P : text * text -> Prop) (items : list stream_item)
    (st : turn_state) :
  (forall t call, In call (extract_all_tool_calls_from_xml t) -> P call) ->
  Forall P st.(invoked) -> Forall P (consume_stream call_mcp_tool st items).(invoked).
Proof.
  intros HP. revert st; induction items as [|[c|err] items IH]; intros st Hs; simpl; auto.
  apply IH. clear IH. revert st Hs; induction c as [|ch c IHc]; intros st Hs; simpl; auto.
  apply IHc. unfold process_choice. destruct (delta_content ch) as [d|]; [|exact Hs].
  apply fold_dispatch_invoked; [|exact Hs].
  apply Forall_forall. intros call Hin. exact (HP _ _ Hin).
Qed.

(** C2 (amended): a region whose inner text does not parse as JSON is
    dropped by the scanner: in any buffer, the region contributes no entry
    and the scan goes on after its closing tag.  Every call handed to the
    tool invoker in a turn is the [(name, arguments-json)] of a region body
    that parses, so none comes from such a region; and a primary stream
    whose text consists of such regions between tag-free texts calls no
    tool and issues no continuation.  This holds whatever [serde_json]
    accepts. *)
Theorem unparsable_region_not_dispatched
    (model_name message : text) (session_id : option text)
    (include_history : option bool) (system_prompt : option text)
    (seed : option Z) (max_tokens max_completion_tokens : option N)
    (items : list stream_item) (t0 : text) (blocks : list (text * text)) :
  let req := primary_request load_session tools_info model_name message session_id
               include_history system_prompt seed max_tokens max_completion_tokens in
  let r := chat_with_loaded_model_streaming call_mcp_tool create_stream load_session
             tools_info model_name message session_id include_history system_prompt seed
             max_tokens max_completion_tokens in
  (forall a inner rest : text,
     contains open_tag a = false -> contains close_tag inner = false ->
     from_str inner = None ->
     extract_all_tool_calls_from_xml (a ++ open_tag ++ inner ++ close_tag ++ rest)
     = extract_all_tool_calls_from_xml rest)
  /\ Forall (fun call => exists inner, from_str inner <> None /\ tool_call_of inner = Some call)
       r.(tool_invocations)
  /\ (create_stream req = Ok items ->
      stream_text items = layout t0 blocks ->
      contains open_tag t0 = false -> clean_blocks blocks ->
      Forall (fun b => from_str (fst b) = None) blocks ->
      r.(tool_invocations) = [] /\ r.(requests) = [req]).
Proof.
  intros req r. split; [|split].
  - intros a inner rest H0 Hi Hp. rewrite extract_region by auto.
    unfold tool_call_of. rewrite Hp. reflexivity.
  - unfold r, chat_with_loaded_model_streaming.
    assert (HI : forall items,
              Forall (fun call => exists inner, from_str inner <> None
                                                /\ tool_call_of inner = Some call)
                (consume_stream call_mcp_tool init_state items).(invoked)).
    { intros its. apply consume_stream_invoked; [exact extract_parsed | constructor]. }
    destruct (create_stream _) as [its|e]; [|constructor].
    destruct (_ && _); [|exact (HI its)].
    destruct (continue_conversation_after_tools _ _ _ _ _ _ _ _) as [[creq []] cev];
      exact (HI its).
  - intros Hc Ht H0 Hb Hp. unfold r.
    assert (Hx : extract_all_tool_calls_from_xml (stream_text items) = []).
    { rewrite Ht. unfold extract_all_tool_calls_from_xml.
      rewrite (extract_loop_layout blocks t0 _ H0 Hb)
        by (pose proof (layout_length t0 blocks); lia).
      clear -Hp. induction Hp as [|b bs Hb1 _ IH]; [reflexivity|].
      simpl. unfold tool_call_of. rewrite Hb1. exact IH. }
    destruct (consume_stream_no_calls items init_state Hx) as (F & I & N).
    destruct (run_no_continuation model_name message session_id include_history system_prompt
                seed max_tokens max_completion_tokens items Hc N) as (O & R & T).
    split; [rewrite T; exact I | exact R].
Qed.

Lemma run_continuation
    (model_name message : text) (session_id : option text)
    (include_history : option bool) (system_prompt : option text)
    (seed : option Z) (max_tokens max_completion_tokens : option N)
    (items : list stream_item) (creq : request) (cres : result text text)
    (cev : list event) :
  let req := primary_request load_session tools_info model_name message session_id
               include_history system_prompt seed max_tokens max_completion_tokens in
  let st := consume_stream call_mcp_tool init_state items in
  create_stream req = Ok items ->
  st.(needs_continuation) = true ->
  continue_conversation_after_tools create_stream (system_message_of tools_info system_prompt)
    req.(req_messages) st.(full_response) model_name seed max_tokens max_completion_tokens
  = (creq, cres, cev) ->
  let r := chat_with_loaded_model_streaming call_mcp_tool create_stream load_session
             tools_info model_name message session_id include_history system_prompt seed
             max_tokens max_completion_tokens in
  r.(requests) = [req; creq]
  /\ r.(tool_invocations) = st.(invoked)
  /\ r.(outcome) = match cres with
                   | Ok ct => Ok (if trim_is_empty ct then st.(full_response)
                                  else st.(full_response) ++ ct)
                   | Err e => Ok (st.(full_response) ++ continuation_error_text e)
                   end
  /\ r.(events) = st.(emitted) ++ cev
                  ++ match cres with Ok _ => [] | Err e => [ChatToken (continuation_error_text e) false] end
                  ++ [ChatToken [] true].
Proof.
  intros req st Hc Hn Hk.
  destruct (consume_stream_inv items init_state init_inv) as (_ & _ & Ht).
  specialize (Ht Hn).
  assert (Hk2 : check_if_continuation_needed (full_response st) = true) by exact Ht.
  unfold chat_with_loaded_model_streaming. fold req. rewrite Hc. cbv zeta. fold st.
  rewrite Hn, Hk2. simpl andb. cbv iota.
  change (build_messages load_session (system_message_of tools_info system_prompt) message
            session_id include_history) with (req_messages req).
  rewrite Hk. destruct cres; simpl; auto.
Qed.

Lemma continuation_request
    (sys : text) (prev : list req_message) (resp model_name : text) (seed : option Z)
    (max_tokens max_completion_tokens : option N) :
  fst (fst (continue_conversation_after_tools create_stream sys prev resp model_name seed
              max_tokens max_completion_tokens))
  = build_request model_name (continuation_messages sys prev resp) seed max_tokens
      max_completion_tokens.
Proof.
  unfold continue_conversation_after_tools.
  destruct (create_stream _); [destruct (consume_continuation _ _)|]; reflexivity.
Qed.


Lemma continuation_choices_tokens (choices : list choice) (acc : text * list event) :
  fst acc = tokens_text (snd acc) -> Forall is_content_token (snd acc) ->
  fst (continuation_choices acc choices) = tokens_text (snd (continuation_choices acc choices))
  /\ Forall is_content_token (snd (continuation_choices acc choices)).
Proof.
  revert acc; induction choices as [|ch rest IH]; intros [a evs] Ha Hf; simpl in *.
  - split; assumption.
  - assert (Hstep : forall a' evs',
              a' = tokens_text evs' -> Forall is_content_token evs' ->
              fst (match finish_reason ch with
                   | Some _ => (a', evs')
                   | None => continuation_choices (a', evs') rest end)
              = tokens_text (snd (match finish_reason ch with
                                  | Some _ => (a', evs')
                                  | None => continuation_choices (a', evs') rest end))
              /\ Forall is_content_token
                   (snd (match finish_reason ch with
                         | Some _ => (a', evs')
                         | None => continuation_choices (a', evs') rest end))).
    { intros a' evs' H1 H2. destruct (finish_reason ch); [simpl; auto|]. apply IH; auto. }
    destruct (delta_content ch) as [c|]; apply Hstep; auto.
    + simpl. rewrite Ha. unfold tokens_text. rewrite flat_map_app. simpl.
      rewrite app_nil_r. reflexivity.
    + apply Forall_app; split; [exact Hf|]. repeat constructor.
Qed.

Lemma consume_continuation_tokens (items : list stream_item) (acc : text * list event)
    (ct : text) (cev : list event) :
  fst acc = tokens_text (snd acc) -> Forall is_content_token (snd acc) ->
  consume_continuation acc items = (Ok ct, cev) ->
  ct = tokens_text cev /\ Forall is_content_token cev.
Proof.
  revert acc; induction items as [|[c|err] items IH]; intros acc Ha Hf H; simpl in H.
  - injection H as <- <-. auto.
  - destruct (continuation_choices_tokens c acc Ha Hf) as [H1 H2]. exact (IH _ H1 H2 H).
  - discriminate H.
Qed.

Lemma consume_stream_err_app (l1 rest : list stream_item) (err : text) (st : turn_state) :
  let st1 := consume_stream call_mcp_tool st l1 in
  let st2 := consume_stream call_mcp_tool st (l1 ++ Err err :: rest) in
  st2.(full_response) = st1.(full_response) /\ st2.(invoked) = st1.(invoked)
  /\ st2.(needs_continuation) = st1.(needs_continuation).
Proof.
  revert st; induction l1 as [|[c|e] l1 IH]; intros st; simpl; auto.
Qed.

Lemma run_outcome_ok
    (model_name message : text) (session_id : option text)
    (include_history : option bool) (system_prompt : option text)
    (seed : option Z) (max_tokens max_completion_tokens : option N)
    (items : list stream_item) :
  let req := primary_request load_session tools_info model_name message session_id
               include_history system_prompt seed max_tokens max_completion_tokens in
  let st := consume_stream call_mcp_tool init_state items in
  create_stream req = Ok items ->
  let r := chat_with_loaded_model_streaming call_mcp_tool create_stream load_session
             tools_info model_name message session_id include_history system_prompt seed
             max_tokens max_completion_tokens in
  (exists s, r.(outcome) = Ok (st.(full_response) ++ s))
  /\ r.(tool_invocations) = st.(invoked).
Proof.
  intros req st Hc.
  unfold chat_with_loaded_model_streaming. fold req. rewrite Hc. cbv zeta. fold st.
  destruct (needs_continuation st && check_if_continuation_needed (full_response st)).
  - destruct (continue_conversation_after_tools _ _ _ _ _ _ _ _) as [[creq [ct|e]] cev];
      simpl; split; auto.
    + destruct (trim_is_empty ct); [exists []; rewrite app_nil_r|exists ct]; reflexivity.
    + eexists; reflexivity.
  - simpl. split; [exists []; rewrite app_nil_r; reflexivity | reflexivity].
Qed.

(** C7 (amended): when the primary stream leaves [needs_continuation] set,
    exactly one continuation request is sent; its messages are the same
    system message, the primary request's messages after its system message
    (history and current user message, in order), and one assistant message
    holding the whole tool-augmented buffer.  The continuation's content is
    forwarded to the sink as token events and is appended to the final text
    unless it is empty or whitespace only (Unicode [White_Space], as
    [str::trim]); the tag scanner is not run on it, so the turn's tool
    invocations are those of the primary stream. *)
Theorem continuation_round
    (model_name message : text) (session_id : option text)
    (include_history : option bool) (system_prompt : option text)
    (seed : option Z) (max_tokens max_completion_tokens : option N)
    (items : list stream_item) :
  let req := primary_request load_session tools_info model_name message session_id
               include_history system_prompt seed max_tokens max_completion_tokens in
  let st := consume_stream call_mcp_tool init_state items in
  create_stream req = Ok items ->
  st.(needs_continuation) = true ->
  let r := chat_with_loaded_model_streaming call_mcp_tool create_stream load_session
             tools_info model_name message session_id include_history system_prompt seed
             max_tokens max_completion_tokens in
  exists creq,
    r.(requests) = [req; creq]
    /\ creq.(req_messages) = [SystemMsg (system_message_of tools_info system_prompt)]
                             ++ tl req.(req_messages) ++ [AssistantMsg st.(full_response)]
    /\ r.(tool_invocations) = st.(invoked)
    /\ (forall citems ct cev,
          create_stream creq = Ok citems ->
          consume_continuation ([], []) citems = (Ok ct, cev) ->
          r.(outcome) = Ok (if trim_is_empty ct then st.(full_response)
                            else st.(full_response) ++ ct)
          /\ r.(events) = st.(emitted) ++ cev ++ [ChatToken [] true]
          /\ tokens_text cev = ct /\ Forall is_content_token cev).
Proof.
  intros req st Hc Hn.
  destruct (continue_conversation_after_tools create_stream (system_message_of tools_info system_prompt)
              req.(req_messages) st.(full_response) model_name seed max_tokens
              max_completion_tokens) as [[creq cres] cev0] eqn:Hk.
  destruct (run_continuation model_name message session_id include_history system_prompt
              seed max_tokens max_completion_tokens items creq cres cev0 Hc Hn Hk)
    as (R & T & O & E).
  pose proof (continuation_request (system_message_of tools_info system_prompt)
                req.(req_messages) st.(full_response) model_name seed max_tokens
                max_completion_tokens) as Hq.
  rewrite Hk in Hq. cbn [fst] in Hq.
  exists creq. split; [exact R|]. split.
  { rewrite Hq. simpl. unfold continuation_messages. f_equal. f_equal.
    destruct (req_messages req); reflexivity. }
  split; [exact T|].
  intros citems ct cev Hcs Hcc.
  unfold continue_conversation_after_tools in Hk. cbv zeta in Hk. rewrite <- Hq in Hk.
  rewrite Hcs, Hcc in Hk. injection Hk as <- <-.
  destruct (consume_continuation_tokens citems ([], []) ct cev eq_refl (Forall_nil _) Hcc)
    as [H1 H2].
  split; [exact O|]. split; [rewrite E; reflexivity|]. split; [symmetry; exact H1 | exact H2].
Qed.

(** C8: the turn fails only when the primary stream cannot be created.  A
    transport error inside the primary stream ends it: what came before is
    kept and returned (the rest of the stream is not read), and a failed
    continuation becomes the annotation [\n\n[Continuation Error: e]] at the
    end of the returned text. *)
Theorem hard_error_only_on_stream_creation
    (model_name message : text) (session_id : option text)
    (include_history : option bool) (system_prompt : option text)
    (seed : option Z) (max_tokens max_completion_tokens : option N) :
  let req := primary_request load_session tools_info model_name message session_id
               include_history system_prompt seed max_tokens max_completion_tokens in
  let r := chat_with_loaded_model_streaming call_mcp_tool create_stream load_session
             tools_info model_name message session_id include_history system_prompt seed
             max_tokens max_completion_tokens in
  ((exists e, r.(outcome) = Err e) <-> (exists e, create_stream req = Err e))
  /\ (forall oks err rest,
        create_stream req = Ok (oks ++ Err err :: rest) ->
        (exists s, r.(outcome)
                   = Ok ((consume_stream call_mcp_tool init_state oks).(full_response) ++ s))
        /\ r.(tool_invocations) = (consume_stream call_mcp_tool init_state oks).(invoked))
  /\ (forall items e,
        create_stream req = Ok items ->
        (consume_stream call_mcp_tool init_state items).(needs_continuation) = true ->
        snd (fst (continue_conversation_after_tools create_stream
                    (system_message_of tools_info system_prompt) req.(req_messages)
                    (consume_stream call_mcp_tool init_state items).(full_response)
                    model_name seed max_tokens max_completion_tokens)) = Err e ->
        r.(outcome) = Ok ((consume_stream call_mcp_tool init_state items).(full_response)
                          ++ [nl; nl] ++ lit "[Continuation Error: " ++ e ++ lit "]")).
Proof.
  intros req r. split; [|split].
  - split.
    + intros [e He]. destruct (create_stream req) as [items|e'] eqn:Hc; [|eauto].
      destruct (run_outcome_ok model_name message session_id include_history system_prompt
                  seed max_tokens max_completion_tokens items Hc) as [[s Hs] _].
      fold r in Hs. congruence.
    + intros [e He]. exists (lit "Failed to create chat stream: " ++ e).
      unfold r, chat_with_loaded_model_streaming. fold req. rewrite He. reflexivity.
  - intros oks err rest Hc.
    destruct (run_outcome_ok model_name message session_id include_history system_prompt
                seed max_tokens max_completion_tokens _ Hc) as [[s Hs] Hi].
    destruct (consume_stream_err_app oks rest err init_state) as (F & I & _).
    fold r in Hs, Hi. split.
    + exists s. rewrite Hs. do 2 f_equal. exact F.
    + rewrite Hi. exact I.
  - intros items e Hc Hn Hk.
    destruct (continue_conversation_after_tools create_stream (system_message_of tools_info system_prompt)
                req.(req_messages) _ model_name seed max_tokens
                max_completion_tokens) as [[creq cres] cev0] eqn:Hk'.
    simpl in Hk. subst cres.
    destruct (run_continuation model_name message session_id include_history system_prompt
                seed max_tokens max_completion_tokens items creq (Err e) cev0 Hc Hn Hk')
      as (_ & _ & O & _).
    exact O.
Qed.

End TurnProps.

(** ** Concrete turns: witnesses and counterexamples *)

Section ConcreteTurns.

(** The concrete runs parse with [demo_serde]. *)
#[local] Existing Instance demo_serde.

Lemma dispatch_tool_response_witness :
  ~ In (signature (lit "fetch", lit "{}")) init_state.(executed_tools)
  /\ (dispatch demo_invoker init_state (lit "fetch", lit "{}")).(needs_continuation) = true
  /\ (dispatch demo_invoker init_state (lit "fetch", lit "{}")).(full_response)
     = [nl] ++ lit "<tool_response>" ++ [nl] ++ lit "Error: boom" ++ [nl]
       ++ lit "</tool_response>".
Proof.
  assert (Hn : ~ In (signature (lit "fetch", lit "{}")) init_state.(executed_tools))
    by (simpl; tauto).
  destruct (dispatch_tool_response demo_invoker init_state (lit "fetch") (lit "{}") Hn)
    as (N & _ & _).
  split; [exact Hn|]. split; [exact N|]. vm_compute. reflexivity.
Defined.

Lemma plain_stream_no_continuation_witness :
  let prim := [demo_chunk (lit "Hello, ") None; demo_chunk (lit "world") (Some (lit "stop"))] in
  demo_stream prim [] (demo_primary prim [] (lit "hi")) = Ok prim
  /\ (demo_run prim [] (lit "hi")).(outcome) = Ok (lit "Hello, world")
  /\ (demo_run prim [] (lit "hi")).(tool_invocations) = [].
Proof.
  intros prim.
  assert (Hc : demo_stream prim [] (demo_primary prim [] (lit "hi")) = Ok prim)
    by (vm_compute; reflexivity).
  destruct (plain_stream_no_continuation demo_invoker (demo_stream prim []) demo_session []
              (lit "m") (lit "hi") None None None None None None prim
              [{| delta_content := Some (lit "world"); finish_reason := Some (lit "stop") |}]
              {| delta_content := Some (lit "world"); finish_reason := Some (lit "stop") |}
              Hc eq_refl eq_refl (or_introl eq_refl) ltac:(discriminate)
              ltac:(vm_compute; reflexivity)) as (O & _ & T).
  split; [exact Hc|]. split.
  - unfold demo_run. rewrite O. vm_compute. reflexivity.
  - exact T.
Defined.

Lemma request_messages_with_history_witness :
  demo_session (lit "s") = Ok demo_history
  /\ map req_messages
       (firstn 1 (chat_with_loaded_model_streaming demo_invoker (demo_stream [] [])
                    demo_session [] (lit "m") (lit "what time is it") (Some (lit "s"))
                    (Some true) None None None None).(requests))
     = [[SystemMsg (system_message_of [] None); UserMsg (lit "hello");
         AssistantMsg (lit "hi there"); UserMsg (lit "what time is it")]].
Proof.
  split; [reflexivity|].
  destruct (request_messages_with_history demo_invoker (demo_stream [] []) demo_session []
              (lit "m") (lit "what time is it") (lit "s") demo_history None None None None
              eq_refl) as [rest Hr].
  rewrite Hr. vm_compute. reflexivity.
Defined.

Lemma unparsable_region_not_dispatched_witness :
  let prim := [demo_chunk (layout (lit "Sure. ")
                             [(qlit "{'name':'time_now','arguments':{", lit " done")])
                          (Some (lit "stop"))] in
  stream_text prim = layout (lit "Sure. ") [(qlit "{'name':'time_now','arguments':{", lit " done")]
  /\ (demo_run prim [] (lit "hi")).(tool_invocations) = []
  /\ (demo_run prim [] (lit "hi")).(requests) = [demo_primary prim [] (lit "hi")].
Proof.
  intros prim.
  assert (Ht : stream_text prim
               = layout (lit "Sure. ") [(qlit "{'name':'time_now','arguments':{", lit " done")])
    by (vm_compute; reflexivity).
  assert (Hb : clean_blocks [(qlit "{'name':'time_now','arguments':{", lit " done")]).
  { unfold clean_blocks. repeat constructor. }
  assert (Hp : Forall (fun b => from_str (fst b) = None)
                 [(qlit "{'name':'time_now','arguments':{", lit " done")]).
  { repeat constructor. }
  destruct (unparsable_region_not_dispatched demo_invoker (demo_stream prim []) demo_session []
              (lit "m") (lit "hi") None None None None None None prim (lit "Sure. ")
              [(qlit "{'name':'time_now','arguments':{", lit " done")])
    as (_ & _ & Hr).
  destruct (Hr ltac:(vm_compute; reflexivity) Ht eq_refl Hb Hp) as [I R].
  split; [exact Ht|]. split; [exact I | exact R].
Defined.

(** C2 counterexample: the primary stream carries one region whose
    arguments JSON is cut short; the scanner extracts nothing from it and
    the tool invoker is not called at all. *)
Lemma unparsable_region_skipped :
  let prim := [demo_chunk (qlit "<tool_call>{'name':'time_now','arguments':{</tool_call>")
                          (Some (lit "stop"))] in
  extract_all_tool_calls_from_xml
    (qlit "<tool_call>{'name':'time_now','arguments':{</tool_call>") = []
  /\ (demo_run prim [] (lit "hi")).(tool_invocations) = [].
Proof. vm_compute. split; reflexivity. Qed.

Lemma continuation_round_witness :
  let prim := [demo_chunk demo_call (Some (lit "stop"))] in
  let cont := [demo_chunk (lit "It is 42.") (Some (lit "stop"))] in
  demo_stream prim cont (demo_primary prim cont (lit "hi")) = Ok prim
  /\ (consume_stream demo_invoker init_state prim).(needs_continuation) = true
  /\ exists creq,
       (demo_run prim cont (lit "hi")).(requests) = [demo_primary prim cont (lit "hi"); creq]
       /\ creq.(req_messages)
          = [SystemMsg (system_message_of [] None); UserMsg (lit "hi");
             AssistantMsg (demo_call ++ tool_response_text (lit "42"))]
       /\ (demo_run prim cont (lit "hi")).(tool_invocations) = [(lit "time_now", lit "{}")].
Proof.
  intros prim cont.
  assert (Hc : demo_stream prim cont (demo_primary prim cont (lit "hi")) = Ok prim)
    by (vm_compute; reflexivity).
  assert (Hn : (consume_stream demo_invoker init_state prim).(needs_continuation) = true)
    by (vm_compute; reflexivity).
  destruct (continuation_round demo_invoker (demo_stream prim cont) demo_session []
              (lit "m") (lit "hi") None None None None None None prim Hc Hn)
    as (creq & R & M & T & _).
  split; [exact Hc|]. split; [exact Hn|]. exists creq.
  split; [exact R|]. split.
  - rewrite M. vm_compute. reflexivity.
  - unfold demo_run. rewrite T. vm_compute. reflexivity.
Defined.

(** C7 counterexample: after a tool call the continuation streams a space
    and a no-break space (U+00A0, bytes C2 A0); the turn returns the
    tool-augmented buffer without them, not the buffer followed by the
    continuation output. *)
Lemma continuation_whitespace_dropped :
  let prim := [demo_chunk demo_call (Some (lit "stop"))] in
  let ws := lit " " ++ [ascii_of_nat 194; ascii_of_nat 160] in
  let cont := [demo_chunk ws (Some (lit "stop"))] in
  let P := demo_call ++ tool_response_text (lit "42") in
  (consume_stream demo_invoker init_state prim).(full_response) = P
  /\ consume_continuation ([], []) cont = (Ok ws, [ChatToken ws false])
  /\ (demo_run prim cont (lit "hi")).(outcome) = Ok P
  /\ (demo_run prim cont (lit "hi")).(outcome) <> Ok (P ++ ws).
Proof.
  intros prim ws cont P.
  assert (O : (demo_run prim cont (lit "hi")).(outcome) = Ok P) by (vm_compute; reflexivity).
  split; [vm_compute; reflexivity|]. split; [vm_compute; reflexivity|].
  split; [exact O|]. rewrite O. intros H. injection H as H.
  apply (f_equal (@List.length ascii)) in H. vm_compute in H. discriminate H.
Qed.

End ConcreteTurns.

(** * Properties of the text helpers *)

Lemma occurs_single (c : ascii) (t : text) (j : nat) :
  occurs [c] t j <-> nth_error t j = Some c.
Proof.
  unfold occurs. revert j; induction t as [|b t IH]; intros [|j]; simpl.
  - split; discriminate.
  - split; discriminate.
  - rewrite andb_true_r. split.
    + intros H. apply chr_eqb_true in H. subst. reflexivity.
    + intros H. injection H as ->. apply chr_eqb_refl.
  - apply IH.
Qed.

Lemma rfind_space_None (t : text) : rfind (lit " ") t = None -> ~ In " "%char t.
Proof.
  intros R Hin. apply In_nth_error in Hin as [j Hj].
  apply (proj2 (occurs_single " "%char t j)) in Hj.
  exact (rfind_None (lit " ") t ltac:(discriminate) R j Hj).
Qed.

(** X1: [truncate_content] returns short content unchanged; longer content
    panics exactly when byte [max_length] is inside a multi-byte character,
    and otherwise is cut to a prefix of at most [max_length] bytes followed
    by ["..."]: the prefix ends just before the last space among the first
    [max_length] bytes, or is those bytes when they hold no space. *)
Theorem truncate_content_spec (content : text) (max_length : nat) :
  (List.length content <= max_length -> truncate_content content max_length = Some content)
  /\ (max_length < List.length content ->
      (truncate_content content max_length = None
       <-> is_char_boundary content max_length = false))
  /\ (max_length < List.length content -> is_char_boundary content max_length = true ->
      exists p, truncate_content content max_length = Some (p ++ lit "...")
                /\ p = firstn (List.length p) content
                /\ List.length p <= max_length
                /\ ((p = firstn max_length content /\ ~ In " "%char p)
                    \/ (nth_error content (List.length p) = Some " "%char
                        /\ ~ In " "%char (skipn (S (List.length p))
                                            (firstn max_length content))))).
Proof.
  unfold truncate_content, slice_to. split; [|split].
  - intros H. apply Nat.leb_le in H. rewrite H. reflexivity.
  - intros H. rewrite (proj2 (Nat.leb_gt _ _) H).
    destruct (is_char_boundary content max_length).
    + destruct (rfind _ _); split; discriminate.
    + split; reflexivity.
  - intros H Hb. rewrite (proj2 (Nat.leb_gt _ _) H), Hb.
    assert (HL : List.length (firstn max_length content) = max_length)
      by (apply firstn_length_le; lia).
    destruct (rfind (lit " ") (firstn max_length content)) as [i|] eqn:R.
    + destruct (rfind_Some (lit " ") _ _ ltac:(discriminate) R) as [Ho Hmax].
      pose proof (occurs_length (lit " ") _ _ ltac:(discriminate) Ho) as Hi. simpl in Hi.
      assert (Hp : List.length (firstn i (firstn max_length content)) = i)
        by (apply firstn_length_le; lia).
      exists (firstn i (firstn max_length content)). rewrite Hp.
      split; [reflexivity|]. split.
      { rewrite firstn_firstn, Nat.min_l by lia. reflexivity. }
      split; [lia|]. right. split.
      * apply (proj1 (occurs_single " "%char _ _)) in Ho. rewrite nth_error_firstn in Ho.
        destruct (i <? max_length); [exact Ho | discriminate].
      * intros Hin. apply In_nth_error in Hin as [j Hj].
        rewrite nth_error_skipn in Hj. apply (proj2 (occurs_single " "%char _ _)) in Hj.
        apply Hmax in Hj. lia.
    + exists (firstn max_length content). rewrite HL.
      split; [reflexivity|]. split; [reflexivity|]. split; [lia|].
      left. split; [reflexivity|]. apply rfind_space_None, R.
Qed.

Lemma utf8_char_len_le (b : ascii) : utf8_char_len b <= 4.
Proof.
  unfold utf8_char_len.
  destruct (_ <? 128); [lia|]. destruct (_ <? 224); [lia|]. destruct (_ <? 240); lia.
Qed.

Lemma encode_utf8_nonempty (c : Z) : encode_utf8 c <> [].
Proof.
  unfold encode_utf8.
  destruct (c <? 128)%Z; [discriminate|]. destruct (c <? 2048)%Z; [discriminate|].
  destruct (c <? 65536)%Z; discriminate.
Qed.

Lemma capitalize_first_app (up : Z -> Z) (x y : text) :
  4 <= List.length x -> capitalize_first up (x ++ y) = capitalize_first up x ++ y.
Proof.
  intros H. destruct x as [|b x']; [simpl in H; lia|].
  pose proof (utf8_char_len_le b) as Hb.
  unfold capitalize_first. cbn [app]. rewrite (app_comm_cons x' y b).
  rewrite firstn_app, skipn_app.
  replace (utf8_char_len b - List.length (b :: x')) with 0 by lia.
  rewrite firstn_O, app_nil_r, skipn_O, <- app_assoc. reflexivity.
Qed.

Lemma capitalize_first_nonempty (up : Z -> Z) (x : text) :
  x <> [] -> capitalize_first up x <> [].
Proof.
  destruct x as [|b x']; [congruence|]. intros _. unfold capitalize_first.
  intros H. apply app_eq_nil in H as [H _]. exact (encode_utf8_nonempty _ H).
Qed.

Lemma ends_with_app (p y : text) : ends_with p (y ++ p) = true.
Proof.
  unfold ends_with. rewrite length_app.
  replace (List.length y + List.length p - List.length p) with (List.length y) by lia.
  rewrite skipn_app_exact. rewrite (proj2 (text_eqb_eq p p) eq_refl).
  rewrite (proj2 (Nat.leb_le _ _)) by lia. reflexivity.
Qed.

Lemma drop_while_head {A} (f : A -> bool) (l : list A) (x : A) (l' : list A) :
  drop_while f l = x :: l' -> f x = false.
Proof.
  induction l as [|y l IH]; simpl; [discriminate|].
  destruct (f y) eqn:E; [exact IH|]. intros H. injection H as -> _. exact E.
Qed.

(** X2: [generate_chat_title] panics exactly when the trimmed content is
    longer than 60 bytes and byte 60 falls inside a multi-byte character. *)
Theorem generate_chat_title_panics (up : Z -> Z) (content : text) :
  generate_chat_title up content = None
  <-> 60 < List.length (trim content) /\ is_char_boundary (trim content) 60 = false.
Proof.
  unfold generate_chat_title. cbv zeta.
  destruct (Nat.leb_spec (List.length (trim content)) 60).
  - split; [destruct (ends_with _ _); discriminate | intros [H' _]; lia].
  - unfold slice_to. destruct (is_char_boundary (trim content) 60) eqn:B.
    + split; [destruct (ends_with _ _); discriminate | intros [_ H']; discriminate].
    + split; [intros _; split; auto | reflexivity].
Qed.

(** X3: when the trimmed content is longer than 60 bytes and byte 60 is a
    character boundary, the title is produced and ends with ["..."]. *)
Theorem generate_chat_title_long (up : Z -> Z) (content : text) :
  60 < List.length (trim content) -> is_char_boundary (trim content) 60 = true ->
  exists t, generate_chat_title up content = Some t /\ ends_with (lit "...") t = true.
Proof.
  intros H B. unfold generate_chat_title. cbv zeta.
  rewrite (proj2 (Nat.leb_gt _ _) H). unfold slice_to. rewrite B.
  match goal with
  | |- context [firstn ?bp (trim content) ++ lit "..."] =>
      assert (Hbp : 41 <= bp <= 60); [|remember bp as k eqn:Ek]
  end.
  { destruct (rfind (lit " ") (firstn 60 (trim content))) as [sp|] eqn:R; [|lia].
    destruct (40 <? sp) eqn:E; [|lia]. apply Nat.ltb_lt in E.
    destruct (rfind_Some (lit " ") _ _ ltac:(discriminate) R) as [Ho _].
    apply occurs_length in Ho; [|discriminate]. rewrite firstn_length_le in Ho by lia.
    simpl in Ho. lia. }
  assert (Hk : List.length (firstn k (trim content)) = k) by (apply firstn_length_le; lia).
  rewrite capitalize_first_app by lia. rewrite ends_with_app.
  eexists. split; [reflexivity | apply ends_with_app].
Qed.

(** X4: in a title that ends with ["..."], the byte before the ellipsis is
    never one of [. , ! ? ; :]. *)
Theorem generate_chat_title_no_punct_before_ellipsis (up : Z -> Z) (content t : text) :
  generate_chat_title up content = Some t ->
  forall pre b, t = pre ++ b :: lit "..." -> is_title_punct b = false.
Proof.
  unfold generate_chat_title. cbv zeta.
  match goal with |- match ?e with _ => _ end = _ -> _ => destruct e as [title|] end;
    [|discriminate].
  intros H pre b Ht. subst t.
  assert (Happ : pre ++ b :: lit "..." = (pre ++ [b]) ++ lit "...")
    by (rewrite <- app_assoc; reflexivity).
  rewrite Happ in H.
  destruct (ends_with (lit "...") (capitalize_first up title)) eqn:E;
    injection H as H.
  - apply app_inv_tail in H. unfold trim_end_punct in H.
    apply (f_equal (@rev ascii)) in H. rewrite rev_involutive, rev_unit in H.
    exact (drop_while_head _ _ _ _ H).
  - rewrite H, ends_with_app in E. discriminate.
Qed.

(** X5: the title is empty exactly when the content is empty or whitespace
    only. *)
Theorem generate_chat_title_empty (up : Z -> Z) (content : text) :
  generate_chat_title up content = Some [] <-> trim content = [].
Proof.
  split.
  - intros H. destruct (trim content) as [|a l] eqn:T; [reflexivity|exfalso].
    unfold generate_chat_title in H. cbv zeta in H. rewrite T in H.
    match type of H with match ?e with _ => _ end = _ => destruct e as [x|] eqn:Ex end;
      [|discriminate].
    assert (Hx : x <> []).
    { destruct (List.length (a :: l) <=? 60).
      - injection Ex as <-. discriminate.
      - destruct (slice_to (a :: l) 60); [|discriminate]. injection Ex as <-.
        intros Hn. apply app_eq_nil in Hn as [_ Hn]. discriminate. }
    destruct (ends_with _ _); injection H as H.
    + apply app_eq_nil in H as [_ Hn]. discriminate.
    + exact (capitalize_first_nonempty up x Hx H).
  - intros T. unfold generate_chat_title. cbv zeta. rewrite T. reflexivity.
Qed.

(** * Properties of the chat sessions store *)

Module SessionProps.

Import Sessions.

Section Props.

Context {f64 : Type}.
Variable char_to_uppercase : Z -> Z.
Variable save : @ChatSessionsStorage f64 -> result unit text.
Variable new_uuid : text.
Variable now : Z.

Lemma text_eqb_refl (k : text) : text_eqb k k = true.
Proof. apply text_eqb_eq. reflexivity. Qed.

Lemma hm_get_insert_same (k : text) (v : @ChatSession f64) m :
  hm_get k (hm_insert k v m) = Some v.
Proof. unfold hm_get, hm_insert. simpl. rewrite text_eqb_refl. reflexivity. Qed.

Lemma hm_get_remove_same (k : text) (m : list (text * @ChatSession f64)) :
  hm_get k (hm_remove k m) = None.
Proof.
  unfold hm_get, hm_remove. induction m as [|[k' v] m IH]; simpl; [reflexivity|].
  destruct (text_eqb k' k) eqn:E; simpl; [exact IH|]. rewrite E. exact IH.
Qed.

Lemma hm_get_remove_other (k k' : text) (m : list (text * @ChatSession f64)) :
  k' <> k -> hm_get k' (hm_remove k m) = hm_get k' m.
Proof.
  intros Hne. unfold hm_get, hm_remove. induction m as [|[k0 v] m IH]; simpl; [reflexivity|].
  destruct (text_eqb k0 k) eqn:E; simpl.
  - apply text_eqb_eq in E. subst k0.
    destruct (text_eqb k k') eqn:E'; [apply text_eqb_eq in E'; congruence|]. exact IH.
  - destruct (text_eqb k0 k'); [reflexivity | exact IH].
Qed.

Lemma hm_get_insert_other (k k' : text) (v : @ChatSession f64) m :
  k' <> k -> hm_get k' (hm_insert k v m) = hm_get k' m.
Proof.
  intros Hne. unfold hm_insert. unfold hm_get at 1. simpl.
  destruct (text_eqb k k') eqn:E; [apply text_eqb_eq in E; congruence|].
  apply hm_get_remove_other, Hne.
Qed.

Lemma hm_contains_key_get (k : text) (m : list (text * @ChatSession f64)) :
  hm_contains_key k m = match hm_get k m with Some _ => true | None => false end.
Proof.
  unfold hm_contains_key, hm_get. induction m as [|[k' v] m IH]; simpl; [reflexivity|].
  destruct (text_eqb k' k); [reflexivity | exact IH].
Qed.

Lemma hm_contains_key_insert (k k' : text) (v : @ChatSession f64) m :
  hm_contains_key k' (hm_insert k v m) = true <-> k' = k \/ hm_contains_key k' m = true.
Proof.
  rewrite !hm_contains_key_get. destruct (list_eq_dec ascii_dec k' k) as [->|Hne].
  - rewrite hm_get_insert_same. split; auto.
  - rewrite hm_get_insert_other by auto. split; auto. intros [->|H]; [congruence|exact H].
Qed.


Lemma hm_get_contains (k : text) (m : list (text * @ChatSession f64)) s :
  hm_get k m = Some s -> hm_contains_key k m = true.
Proof. intros H. rewrite hm_contains_key_get, H. reflexivity. Qed.

Lemma option_text_eqb_spec (a b : option text) : option_text_eqb a b = true <-> a = b.
Proof.
  destruct a as [x|], b as [y|]; simpl; split; intros H; try discriminate; try reflexivity.
  - apply text_eqb_eq in H. subst. reflexivity.
  - injection H as <-. apply text_eqb_refl.
Qed.

Ltac unfold_cmds :=
  unfold create_chat_session, update_chat_session, delete_chat_session,
    set_active_chat_session, add_message_to_session, persist_temporary_session,
    with_storage, save_then in *.

(** X6: no command writes the sessions file unless the load succeeded, and
    the commands that take a session id write it only when that session is
    stored. *)
Theorem writes_require_loaded_session (loaded : result (@ChatSessionsStorage f64) text)
    (sid role_arg content_arg : text) (title_arg model_arg : option text)
    (tps : option f64) (ie : option bool) (session : @ChatSession f64)
    (st' : @ChatSessionsStorage f64) (r : result (@ChatMessage f64) text) :
  (fst (create_chat_session loaded save new_uuid now title_arg) = Some st' ->
   exists storage, loaded = Ok storage) /\
  (fst (persist_temporary_session loaded save session) = Some st' ->
   exists storage, loaded = Ok storage) /\
  (fst (update_chat_session loaded save now sid title_arg model_arg) = Some st' ->
   exists storage, loaded = Ok storage /\ hm_contains_key sid storage.(sessions) = true) /\
  (fst (delete_chat_session loaded save sid) = Some st' ->
   exists storage, loaded = Ok storage /\ hm_contains_key sid storage.(sessions) = true) /\
  (fst (set_active_chat_session loaded save sid) = Some st' ->
   exists storage, loaded = Ok storage /\ hm_contains_key sid storage.(sessions) = true) /\
  (add_message_to_session char_to_uppercase loaded save new_uuid now sid role_arg content_arg
     tps ie = Some (Some st', r) ->
   exists storage, loaded = Ok storage /\ hm_contains_key sid storage.(sessions) = true).
Proof.
  destruct loaded as [storage|e]; unfold_cmds;
    [| repeat split; intros H; discriminate H].
  repeat split; intros H; exists storage; try reflexivity; split; try reflexivity.
  - destruct (hm_get sid (sessions storage)) eqn:E; [|discriminate H].
    exact (hm_get_contains _ _ _ E).
  - destruct (hm_contains_key sid (sessions storage)); [reflexivity | discriminate H].
  - destruct (hm_contains_key sid (sessions storage)); [reflexivity | discriminate H].
  - destruct (hm_get sid (sessions storage)) eqn:E; [|discriminate H].
    exact (hm_get_contains _ _ _ E).
Qed.

(** X7: a session id that is not stored makes every command that takes one
    fail with ["Chat session not found: " ++ id], and nothing is written. *)
Theorem missing_session_not_found (storage : @ChatSessionsStorage f64)
    (sid role_arg content_arg : text) (title_arg model_arg : option text)
    (tps : option f64) (ie : option bool) :
  hm_get sid storage.(sessions) = None ->
  update_chat_session (Ok storage) save now sid title_arg model_arg
    = (None, Err (not_found sid)) /\
  delete_chat_session (Ok storage) save sid = (None, Err (not_found sid)) /\
  set_active_chat_session (Ok storage) save sid = (None, Err (not_found sid)) /\
  add_message_to_session char_to_uppercase (Ok storage) save new_uuid now sid role_arg
    content_arg tps ie = Some (None, Err (not_found sid)) /\
  get_session_messages (Ok storage) sid = Err (not_found sid) /\
  get_conversation_history (Ok storage) sid = Err (not_found sid).
Proof.
  intros H. pose proof (hm_contains_key_get sid (sessions storage)) as C.
  rewrite H in C. unfold_cmds. unfold get_session_messages, get_conversation_history.
  rewrite H, C. repeat split; reflexivity.
Qed.

(** X8: [create_chat_session] files a fresh session under the new id, with
    the given title or ["New Chat"], no messages and no model, makes it the
    active session and leaves every other session as it was; the session is
    returned exactly when saving succeeds. *)
Theorem create_chat_session_spec (storage : @ChatSessionsStorage f64) (title_arg : option text) :
  exists st' s,
    create_chat_session (Ok storage) save new_uuid now title_arg
      = (Some st', match save st' with Ok _ => Ok s | Err e => Err e end) /\
    hm_get new_uuid st'.(sessions) = Some s /\
    s.(id) = new_uuid /\ s.(title) = unwrap_or title_arg (lit "New Chat") /\
    s.(created_at) = now /\ s.(updated_at) = now /\ s.(model_id) = None /\
    s.(messages) = [] /\
    st'.(active_session_id) = Some new_uuid /\
    (forall k, k <> new_uuid -> hm_get k st'.(sessions) = hm_get k storage.(sessions)) /\
    get_session_messages (Ok st') new_uuid = Ok [].
Proof.
  eexists; eexists. unfold_cmds. split; [reflexivity|]. cbn.
  unfold get_session_messages. cbn. rewrite hm_get_insert_same.
  repeat split; try reflexivity. intros k Hk. apply hm_get_insert_other, Hk.
Qed.

(** X9: deleting a stored session removes it and nothing else, clears the
    active id exactly when it named that session, and answers
    ["Chat session deleted: " ++ id] when saving succeeds. *)
Theorem delete_chat_session_spec (storage : @ChatSessionsStorage f64) (sid : text) :
  hm_contains_key sid storage.(sessions) = true ->
  exists st',
    delete_chat_session (Ok storage) save sid
      = (Some st', match save st' with
                   | Ok _ => Ok (lit "Chat session deleted: " ++ sid)
                   | Err e => Err e end) /\
    hm_get sid st'.(sessions) = None /\
    (forall k, k <> sid -> hm_get k st'.(sessions) = hm_get k storage.(sessions)) /\
    (storage.(active_session_id) = Some sid -> st'.(active_session_id) = None) /\
    (storage.(active_session_id) <> Some sid ->
     st'.(active_session_id) = storage.(active_session_id)) /\
    get_session_messages (Ok st') sid = Err (not_found sid).
Proof.
  intros H. unfold_cmds. rewrite H. cbn. eexists. split; [reflexivity|].
  unfold get_session_messages. cbn. rewrite hm_get_remove_same.
  split; [reflexivity|]. split; [intros k Hk; apply hm_get_remove_other, Hk|].
  destruct (option_text_eqb (active_session_id storage) (Some sid)) eqn:E.
  - apply option_text_eqb_spec in E. repeat split; try reflexivity. intros N; contradiction.
  - repeat split; try reflexivity. intros A. rewrite A in E.
    rewrite (proj2 (option_text_eqb_spec _ _) eq_refl) in E. discriminate E.
Qed.

(** X10: activating a stored session changes only the active id and
    answers with the id when saving succeeds. *)
Theorem set_active_chat_session_spec (storage : @ChatSessionsStorage f64) (sid : text) :
  hm_contains_key sid storage.(sessions) = true ->
  exists st',
    set_active_chat_session (Ok storage) save sid
      = (Some st', match save st' with Ok _ => Ok sid | Err e => Err e end) /\
    st'.(sessions) = storage.(sessions) /\ st'.(active_session_id) = Some sid.
Proof.
  intros H. unfold_cmds. rewrite H. cbn. eexists. repeat split; reflexivity.
Qed.

(** X11: updating a stored session keeps its id, creation time and
    messages, sets the title and the model only when they are given, stamps
    [updated_at], stores the result under the same id, and leaves the other
    sessions and the active id alone. *)
Theorem update_chat_session_spec (storage : @ChatSessionsStorage f64) (sid : text)
    (s : @ChatSession f64) (title_arg model_arg : option text) :
  hm_get sid storage.(sessions) = Some s ->
  exists st' s',
    update_chat_session (Ok storage) save now sid title_arg model_arg
      = (Some st', match save st' with Ok _ => Ok s' | Err e => Err e end) /\
    hm_get sid st'.(sessions) = Some s' /\
    s'.(id) = s.(id) /\ s'.(created_at) = s.(created_at) /\ s'.(messages) = s.(messages) /\
    s'.(updated_at) = now /\ s'.(title) = unwrap_or title_arg s.(title) /\
    s'.(model_id) = match model_arg with Some m => Some m | None => s.(model_id) end /\
    (forall k, k <> sid -> hm_get k st'.(sessions) = hm_get k storage.(sessions)) /\
    st'.(active_session_id) = storage.(active_session_id).
Proof.
  intros H. unfold_cmds. rewrite H. do 2 eexists. split; [reflexivity|]. cbn.
  rewrite hm_get_insert_same. repeat split; try reflexivity.
  intros k Hk. apply hm_get_insert_other, Hk.
Qed.


Lemma push_message_fields (s s' : @ChatSession f64) (msg : @ChatMessage f64) :
  push_message char_to_uppercase now s msg = Some s' ->
  s'.(id) = s.(id) /\ s'.(created_at) = s.(created_at) /\ s'.(model_id) = s.(model_id) /\
  s'.(updated_at) = now /\ s'.(messages) = s.(messages) ++ [msg].
Proof.
  unfold push_message. destruct (_ && _).
  - destruct (generate_chat_title _ _); intros H; [|discriminate H].
    injection H as <-. repeat split; reflexivity.
  - intros H. injection H as <-. repeat split; reflexivity.
Qed.

Lemma hm_ids_insert (m : list (text * @ChatSession f64)) k v :
  (forall k' s, hm_get k' m = Some s -> s.(id) = k') -> v.(id) = k ->
  forall k' s, hm_get k' (hm_insert k v m) = Some s -> s.(id) = k'.
Proof.
  intros Hm Hv k' s H. destruct (list_eq_dec ascii_dec k' k) as [->|Hne].
  - rewrite hm_get_insert_same in H. injection H as <-. exact Hv.
  - rewrite hm_get_insert_other in H by exact Hne. exact (Hm _ _ H).
Qed.

Lemma hm_contains_insert_keep (m : list (text * @ChatSession f64)) k v a :
  hm_contains_key a m = true -> hm_contains_key a (hm_insert k v m) = true.
Proof. intros H. apply hm_contains_key_insert. right. exact H. Qed.

Lemma hm_contains_remove_other (m : list (text * @ChatSession f64)) k a :
  a <> k -> hm_contains_key a (hm_remove k m) = hm_contains_key a m.
Proof. intros H. rewrite !hm_contains_key_get, hm_get_remove_other by exact H. reflexivity. Qed.

(** X12: [add_message_to_temporary_session] panics exactly when the session
    is still titled ["New Chat"], the role is ["user"] and
    [generate_chat_title] panics on the content; otherwise it returns the new
    message (fresh id, current time) and the session with that message
    appended, [updated_at] stamped, id, creation time and model kept, and the
    title regenerated from the content exactly in that case. *)
Theorem add_message_to_temporary_session_spec (s : @ChatSession f64)
    (role_arg content_arg : text) (tps : option f64) (ie : option bool) :
  (add_message_to_temporary_session char_to_uppercase new_uuid now s role_arg content_arg tps ie
     = None <->
   s.(title) = lit "New Chat" /\ role_arg = lit "user" /\
   generate_chat_title char_to_uppercase content_arg = None) /\
  (forall s' msg,
   add_message_to_temporary_session char_to_uppercase new_uuid now s role_arg content_arg tps ie
     = Some (s', msg) ->
   msg = new_message new_uuid now role_arg content_arg tps ie /\
   s'.(id) = s.(id) /\ s'.(created_at) = s.(created_at) /\ s'.(model_id) = s.(model_id) /\
   s'.(updated_at) = now /\ s'.(messages) = s.(messages) ++ [msg] /\
   (s.(title) = lit "New Chat" /\ role_arg = lit "user" ->
    generate_chat_title char_to_uppercase content_arg = Some s'.(title)) /\
   (~ (s.(title) = lit "New Chat" /\ role_arg = lit "user") -> s'.(title) = s.(title))).
Proof.
  unfold add_message_to_temporary_session, push_message, new_message. cbn [role content].
  destruct (text_eqb (title s) (lit "New Chat")) eqn:Et;
  destruct (text_eqb role_arg (lit "user")) eqn:Er; cbn [andb];
  try (apply text_eqb_eq in Et); try (apply text_eqb_eq in Er).
  - destruct (generate_chat_title char_to_uppercase content_arg) eqn:Eg.
    + split; [split; [discriminate | intros (_ & _ & G); discriminate G]|].
      intros s' msg H. injection H as <- <-. repeat split; try reflexivity.
      intros N. exfalso. exact (N (conj Et Er)).
    + split; [split; [intros _; auto | reflexivity]|]. intros s' msg H. discriminate H.
  - split; [split; [discriminate | intros (_ & R & _); rewrite R in Er;
      rewrite text_eqb_refl in Er; discriminate Er]|].
    intros s' msg H. injection H as <- <-. repeat split; try reflexivity.
    intros (_ & R). rewrite R in Er. rewrite text_eqb_refl in Er. discriminate Er.
  - split; [split; [discriminate | intros (T & _); rewrite T in Et;
      rewrite text_eqb_refl in Et; discriminate Et]|].
    intros s' msg H. injection H as <- <-. repeat split; try reflexivity.
    intros (T & _). rewrite T in Et. rewrite text_eqb_refl in Et. discriminate Et.
  - split; [split; [discriminate | intros (T & _); rewrite T in Et;
      rewrite text_eqb_refl in Et; discriminate Et]|].
    intros s' msg H. injection H as <- <-. repeat split; try reflexivity.
    intros (T & _). rewrite T in Et. rewrite text_eqb_refl in Et. discriminate Et.
Qed.

(** X13: for a stored session, [add_message_to_session] panics exactly when
    [add_message_to_temporary_session] does on that session; otherwise it
    stores the session that one returns under the same id, leaves the other
    sessions and the active id alone, and returns the same message when
    saving succeeds.  Read back, the session's messages are the old ones
    followed by the new message, and its conversation history gains the
    message exactly when its role is ["user"] or ["assistant"]. *)
Theorem add_message_to_session_spec (storage : @ChatSessionsStorage f64) (sid : text)
    (s : @ChatSession f64) (role_arg content_arg : text) (tps : option f64) (ie : option bool) :
  hm_get sid storage.(sessions) = Some s ->
  match add_message_to_temporary_session char_to_uppercase new_uuid now s role_arg content_arg
          tps ie with
  | None =>
      add_message_to_session char_to_uppercase (Ok storage) save new_uuid now sid role_arg
        content_arg tps ie = None
  | Some (s', msg) =>
      exists st',
        add_message_to_session char_to_uppercase (Ok storage) save new_uuid now sid role_arg
          content_arg tps ie
          = Some (Some st', match save st' with Ok _ => Ok msg | Err e => Err e end) /\
        hm_get sid st'.(sessions) = Some s' /\
        (forall k, k <> sid -> hm_get k st'.(sessions) = hm_get k storage.(sessions)) /\
        st'.(active_session_id) = storage.(active_session_id) /\
        get_session_messages (Ok st') sid = Ok (s.(messages) ++ [msg]) /\
        get_conversation_history (Ok st') sid
          = Ok (filter (fun m => text_eqb m.(role) (lit "user")
                                 || text_eqb m.(role) (lit "assistant")) s.(messages)
                ++ if text_eqb role_arg (lit "user") || text_eqb role_arg (lit "assistant")
                   then [msg] else [])
  end.
Proof.
  intros H. unfold add_message_to_session, add_message_to_temporary_session. rewrite H.
  destruct (push_message char_to_uppercase now s _) as [s'|] eqn:E; [|reflexivity].
  destruct (push_message_fields _ _ _ E) as (_ & _ & _ & _ & Hm).
  eexists. split; [reflexivity|]. cbn.
  unfold get_session_messages, get_conversation_history. cbn.
  rewrite hm_get_insert_same, Hm. repeat split; try reflexivity.
  - intros k Hk. apply hm_get_insert_other, Hk.
  - rewrite filter_app. cbn. reflexivity.
Qed.

(** X14: [persist_temporary_session] files the session under its own id,
    makes it the active session, leaves the other sessions alone and
    returns it when saving succeeds. *)
Theorem persist_temporary_session_spec (storage : @ChatSessionsStorage f64)
    (session : @ChatSession f64) :
  exists st',
    persist_temporary_session (Ok storage) save session
      = (Some st', match save st' with Ok _ => Ok session | Err e => Err e end) /\
    hm_get session.(id) st'.(sessions) = Some session /\
    st'.(active_session_id) = Some session.(id) /\
    (forall k, k <> session.(id) -> hm_get k st'.(sessions) = hm_get k storage.(sessions)).
Proof.
  unfold_cmds. eexists. split; [reflexivity|]. cbn. rewrite hm_get_insert_same.
  repeat split; try reflexivity. intros k Hk. apply hm_get_insert_other, Hk.
Qed.

(** X15: persisting a fresh temporary session does exactly what
    [create_chat_session] does with the same title, id and time: the same
    storage is written and the same result returned, whatever the load
    gives. *)
Theorem persist_temporary_is_create (loaded : result (@ChatSessionsStorage f64) text)
    (title_arg : option text) :
  persist_temporary_session loaded save (create_temporary_chat_session new_uuid now title_arg)
  = create_chat_session loaded save new_uuid now title_arg.
Proof. destruct loaded; reflexivity. Qed.

(** X16: every command that writes the sessions file keeps the store
    consistent: if each stored session is filed under its own id and the
    active id names a stored session before, the same holds for what is
    written. *)
Theorem commands_keep_storage_ok (storage : @ChatSessionsStorage f64)
    (sid role_arg content_arg : text) (title_arg model_arg : option text)
    (tps : option f64) (ie : option bool) (session : @ChatSession f64)
    (st' : @ChatSessionsStorage f64) :
  storage_ok storage ->
  (forall r, create_chat_session (Ok storage) save new_uuid now title_arg = (Some st', r) ->
   storage_ok st') /\
  (forall r, persist_temporary_session (Ok storage) save session = (Some st', r) ->
   storage_ok st') /\
  (forall r, update_chat_session (Ok storage) save now sid title_arg model_arg = (Some st', r) ->
   storage_ok st') /\
  (forall r, delete_chat_session (Ok storage) save sid = (Some st', r) -> storage_ok st') /\
  (forall r, set_active_chat_session (Ok storage) save sid = (Some st', r) -> storage_ok st') /\
  (forall r, add_message_to_session char_to_uppercase (Ok storage) save new_uuid now sid role_arg
     content_arg tps ie = Some (Some st', r) -> storage_ok st').
Proof.
  intros [Hids Hact]. unfold_cmds. repeat match goal with |- _ /\ _ => split end; intros r H.
  - injection H as <- _. split; cbn [sessions active_session_id].
    + apply hm_ids_insert; [exact Hids | reflexivity].
    + intros a A. injection A as <-. apply hm_contains_key_insert. left; reflexivity.
  - injection H as <- _. split; cbn [sessions active_session_id].
    + apply hm_ids_insert; [exact Hids | reflexivity].
    + intros a A. injection A as <-. apply hm_contains_key_insert. left; reflexivity.
  - destruct (hm_get sid (sessions storage)) as [s|] eqn:E; [|discriminate H].
    injection H as <- _. split; cbn [sessions active_session_id].
    + apply hm_ids_insert; [exact Hids | exact (Hids _ _ E)].
    + intros a A. apply hm_contains_insert_keep, Hact, A.
  - destruct (hm_contains_key sid (sessions storage)) eqn:C; [|discriminate H].
    injection H as <- _. split; cbn [sessions active_session_id].
    + intros k s G. destruct (list_eq_dec ascii_dec k sid) as [->|Hne].
      * rewrite hm_get_remove_same in G. discriminate G.
      * rewrite hm_get_remove_other in G by exact Hne. exact (Hids _ _ G).
    + intros a.
      destruct (option_text_eqb (active_session_id storage) (Some sid)) eqn:O;
        [intros A; discriminate A|].
      intros A. rewrite hm_contains_remove_other.
      * exact (Hact _ A).
      * intros ->. rewrite A in O. rewrite (proj2 (option_text_eqb_spec _ _) eq_refl) in O.
        discriminate O.
  - destruct (hm_contains_key sid (sessions storage)) eqn:C; [|discriminate H].
    injection H as <- _. split; cbn [sessions active_session_id].
    + exact Hids.
    + intros a A. injection A as <-. exact C.
  - destruct (hm_get sid (sessions storage)) as [s|] eqn:E; [|discriminate H].
    destruct (push_message char_to_uppercase now s _) as [s'|] eqn:P; [|discriminate H].
    injection H as <- _. split; cbn [sessions active_session_id].
    + apply hm_ids_insert; [exact Hids|].
      destruct (push_message_fields _ _ _ P) as (I & _). rewrite I. exact (Hids _ _ E).
    + intros a A. apply hm_contains_insert_keep, Hact, A.
Qed.

End Props.

End SessionProps.

(** * The sessions store seen by the chat turn *)

Module HistoryProps.

Section Props.

Context {f64 : Type}.
Variable char_to_uppercase : Z -> Z.
Variable save : @Sessions.ChatSessionsStorage f64 -> result unit text.
Variable new_uuid : text.
Variable now : Z.

(** X17: the user message the front end has just saved with
    [add_message_to_session] is sent to the model once: building the request
    for that message with the session's history gives the system message,
    the session's earlier user and assistant messages, and the message
    itself, with the stored copy dropped. *)
Theorem saved_user_message_sent_once (storage : @Sessions.ChatSessionsStorage f64)
    (sid message : text) (s : @Sessions.ChatSession f64) (tps : option f64)
    (ie : option bool) (st' : @Sessions.ChatSessionsStorage f64)
    (r : result (@Sessions.ChatMessage f64) text) (system_message : text) :
  Sessions.hm_get sid storage.(Sessions.sessions) = Some s ->
  Sessions.add_message_to_session char_to_uppercase (Ok storage) save new_uuid now sid
    (lit "user") message tps ie = Some (Some st', r) ->
  build_messages (session_loader (Ok st')) system_message message (Some sid) (Some true)
  = [SystemMsg system_message]
    ++ flat_map history_to_request
         (filter is_user_or_assistant (map to_turn_message s.(Sessions.messages)))
    ++ [UserMsg message].
Proof.
  intros Hs Ha. unfold Sessions.add_message_to_session in Ha. rewrite Hs in Ha.
  destruct (Sessions.push_message char_to_uppercase now s _) as [s'|] eqn:P;
    [|discriminate Ha].
  injection Ha as <- _.
  destruct (SessionProps.push_message_fields _ _ _ _ _ P) as (_ & _ & _ & _ & Hm).
  unfold build_messages. cbn [unwrap_or].
  unfold get_conversation_history, session_loader, Sessions.get_session_messages.
  cbn [Sessions.sessions]. rewrite SessionProps.hm_get_insert_same, Hm.
  rewrite map_app, filter_app. cbn [map filter].
  unfold is_user_or_assistant at 2. cbn [to_turn_message role Sessions.role Sessions.new_message].
  rewrite SessionProps.text_eqb_refl. cbn [orb].
  unfold drop_duplicate_last. rewrite rev_unit.
  cbn [to_turn_message role content Sessions.role Sessions.content Sessions.new_message].
  rewrite SessionProps.text_eqb_refl, SessionProps.text_eqb_refl. cbn [andb].
  rewrite removelast_last. reflexivity.
Qed.

End Props.

End HistoryProps.

(** * Properties of the retrieval-augmented turn *)

Module RagProps.

Lemma truncate_content_None (content : text) (max_length : nat) :
  truncate_content content max_length = None <->
  max_length < List.length content /\ is_char_boundary content max_length = false.
Proof.
  unfold truncate_content, slice_to.
  destruct (Nat.leb_spec (List.length content) max_length) as [L|L].
  - split; [discriminate | intros [L' _]; lia].
  - destruct (is_char_boundary content max_length).
    + destruct (rfind _ _); split; try discriminate; intros [_ B]; discriminate B.
    + split; intros _; [split; [exact L | reflexivity] | reflexivity].
Qed.

Section Retrieval.

Context {Embedding VectorStore SearchResult : Type}.
Variable create_single_embedding : text -> result Embedding text.
Variable vector_store_new : result VectorStore text.
Variable search_similar : VectorStore -> Embedding -> N -> result (list SearchResult) text.
Variable rerank : text -> list SearchResult -> result (list SearchResult) text.
Variable document_title document_content relevance_text : SearchResult -> text.

Lemma source_entries_None (i : nat) (rs : list SearchResult) :
  source_entries document_title document_content relevance_text i rs = None <->
  exists r, In r rs /\ truncate_content (document_content r) 500 = None.
Proof.
  revert i; induction rs as [|r rs IH]; intros i; cbn.
  - split; [discriminate | intros (r & [] & _)].
  - unfold source_entry at 1. destruct (truncate_content (document_content r) 500) eqn:T.
    + specialize (IH (S i)).
      destruct (source_entries _ _ _ (S i) rs) eqn:E.
      * split; [discriminate|]. intros (r' & [<-|Hin] & Hr); [congruence|].
        assert (Hn : Some l = None) by (apply IH; exists r'; auto). discriminate Hn.
      * split; [intros _|reflexivity].
        destruct (proj1 IH eq_refl) as (r' & Hin & Hr). exists r'; auto.
    + split; [intros _; exists r; auto | reflexivity].
Qed.

Lemma source_entries_Some (i : nat) (rs : list SearchResult) (es : list text) :
  source_entries document_title document_content relevance_text i rs = Some es ->
  List.length es = List.length rs /\
  forall j r, nth_error rs j = Some r ->
  exists c, truncate_content (document_content r) 500 = Some c /\
    nth_error es j = Some (lit "Source " ++ decimal (S (i + j)) ++ lit ": " ++ document_title r
                           ++ [nl] ++ lit "Content: " ++ c ++ [nl] ++ lit "Relevance Score: "
                           ++ relevance_text r ++ [nl] ++ lit "---").
Proof.
  revert i es; induction rs as [|r rs IH]; intros i es H; cbn in H.
  - injection H as <-. split; [reflexivity|]. intros j r Hj. destruct j; discriminate Hj.
  - unfold source_entry at 1 in H.
    destruct (truncate_content (document_content r) 500) as [c|] eqn:T; [|discriminate H].
    destruct (source_entries _ _ _ (S i) rs) as [es'|] eqn:E; [|discriminate H].
    injection H as <-. destruct (IH (S i) es' E) as [L F].
    split; [cbn; rewrite L; reflexivity|].
    intros [|j] r' Hj; cbn in Hj.
    + injection Hj as <-. exists c. rewrite Nat.add_0_r. split; [exact T | reflexivity].
    + destruct (F j r' Hj) as (c' & T' & N'). exists c'. split; [exact T'|].
      cbn. rewrite N'. rewrite Nat.add_succ_r. reflexivity.
Qed.

(** X18: once the query is embedded, the store opened and [limit * 2]
    results searched, an empty search gives an empty context.  Otherwise,
    after reranking, only the first [min 3 limit] reranked results are used:
    the call panics exactly when one of them has content longer than 500
    bytes whose byte 500 falls inside a character, and else the context is
    one entry per used result, joined by newlines, entry [i] being
    ["Source i+1: title"], the content cut by [truncate_content] at 500 and
    the relevance score. *)
Theorem perform_rag_retrieval_spec (query : text) (limit : N) (emb : Embedding)
    (store : VectorStore) (results reranked : list SearchResult) :
  create_single_embedding query = Ok emb ->
  vector_store_new = Ok store ->
  search_similar store emb (usize_wrap (limit * 2)) = Ok results ->
  let run := perform_rag_retrieval create_single_embedding vector_store_new search_similar
               rerank document_title document_content relevance_text query limit in
  let top := firstn (N.to_nat (N.min 3 limit)) reranked in
  (results = [] -> run = Some (Ok [])) /\
  (results <> [] -> rerank query results = Ok reranked ->
   (run = None <->
    exists r, In r top /\ 500 < List.length (document_content r) /\
              is_char_boundary (document_content r) 500 = false) /\
   (forall x, run = Some x ->
    exists entries,
      x = Ok (join [nl] entries) /\
      List.length entries = Nat.min (N.to_nat (N.min 3 limit)) (List.length reranked) /\
      forall i r, nth_error top i = Some r ->
      exists c, truncate_content (document_content r) 500 = Some c /\
        nth_error entries i
        = Some (lit "Source " ++ decimal (S i) ++ lit ": " ++ document_title r ++ [nl]
                ++ lit "Content: " ++ c ++ [nl] ++ lit "Relevance Score: " ++ relevance_text r
                ++ [nl] ++ lit "---"))).
Proof.
  intros He Hv Hs run top. unfold run, perform_rag_retrieval. rewrite He, Hv, Hs.
  split; [intros ->; reflexivity|].
  intros Hne Hr. destruct results as [|r0 rs0]; [congruence|]. rewrite Hr.
  fold top. split.
  - destruct (source_entries _ _ _ 0 top) eqn:E.
    + split; [discriminate|]. intros (r & Hin & L & B).
      assert (Hn : source_entries document_title document_content relevance_text 0 top = None)
        by (apply source_entries_None; exists r; split; [exact Hin|];
            apply truncate_content_None; split; assumption).
      congruence.
    + split; [intros _|reflexivity].
      destruct (proj1 (source_entries_None 0 top) E) as (r & Hin & T).
      apply truncate_content_None in T. exists r. split; [exact Hin | exact T].
  - intros x. destruct (source_entries _ _ _ 0 top) as [es|] eqn:E; [|discriminate].
    intros Hx. injection Hx as <-. exists es.
    destruct (source_entries_Some 0 top es E) as [L F].
    split; [reflexivity|]. split.
    + rewrite L. unfold top. rewrite length_firstn. reflexivity.
    + intros i r Hi. exact (F i r Hi).
Qed.

End Retrieval.

Section Turn.

Context `{serde : SerdeJson}.

Variable call_mcp_tool :
  list (text * text) -> text -> option (list (text * json)) -> result text text.
Variable create_stream : request -> result (list stream_item) text.
Variable load_session : text -> result (list ChatMessage) text.
Variable tools_info : text.
Variable rag_retrieval : text -> N -> result text text.

Lemma turn_requests_system_message (model_name message : text)
    (session_id : option text) (include_history : option bool)
    (system_prompt : option text) (seed : option Z)
    (max_tokens max_completion_tokens : option N) :
  Forall (fun req => exists rest,
            req.(req_messages) = SystemMsg (system_message_of tools_info system_prompt) :: rest)
    (chat_with_loaded_model_streaming call_mcp_tool create_stream load_session tools_info
       model_name message session_id include_history system_prompt seed max_tokens
       max_completion_tokens).(requests).
Proof.
  unfold chat_with_loaded_model_streaming.
  assert (Hp : exists rest,
    (primary_request load_session tools_info model_name message session_id include_history
       system_prompt seed max_tokens max_completion_tokens).(req_messages)
    = SystemMsg (system_message_of tools_info system_prompt) :: rest)
    by (eexists; reflexivity).
  destruct (create_stream _) as [items|e]; [|constructor; [exact Hp | constructor]].
  destruct (_ && _); [|constructor; [exact Hp | constructor]].
  destruct (continue_conversation_after_tools create_stream _ _ _ _ _ _ _)
    as [[creq cres] cev] eqn:C.
  assert (Hc : exists rest,
    creq.(req_messages) = SystemMsg (system_message_of tools_info system_prompt) :: rest).
  { unfold continue_conversation_after_tools in C.
    destruct (create_stream _); [destruct (consume_continuation _ _)|];
      injection C as <- _ _; eexists; reflexivity. }
  destruct cres; repeat constructor; assumption.
Qed.

(** X19: when RAG is off, fails, or finds nothing, the RAG turn is the
    plain turn with the given system prompt or, without one, the RAG default
    prompt; every request it sends starts with that prompt followed by the
    tool catalogue, so the tool default prompt is never used. *)
Theorem rag_turn_without_context (model_name message : text)
    (session_id : option text) (include_history : option bool)
    (system_prompt : option text) (seed : option Z)
    (max_tokens max_completion_tokens : option N)
    (use_rag : option bool) (rag_limit : option N) :
  (unwrap_or use_rag false = false \/
   (exists e, rag_retrieval message (unwrap_or rag_limit 5%N) = Err e) \/
   rag_retrieval message (unwrap_or rag_limit 5%N) = Ok []) ->
  let r := chat_with_rag_streaming call_mcp_tool create_stream load_session tools_info
             rag_retrieval model_name message session_id include_history system_prompt seed
             max_tokens max_completion_tokens use_rag rag_limit in
  r = chat_with_loaded_model_streaming call_mcp_tool create_stream load_session tools_info
        model_name message session_id include_history
        (Some (unwrap_or system_prompt rag_default_prompt)) seed max_tokens
        max_completion_tokens /\
  Forall (fun req => exists rest,
            req.(req_messages)
            = SystemMsg (unwrap_or system_prompt rag_default_prompt ++ tools_info) :: rest)
    r.(requests).
Proof.
  intros H r.
  assert (Hr : r = chat_with_loaded_model_streaming call_mcp_tool create_stream load_session
        tools_info model_name message session_id include_history
        (Some (unwrap_or system_prompt rag_default_prompt)) seed max_tokens
        max_completion_tokens).
  { unfold r, chat_with_rag_streaming. f_equal. f_equal.
    destruct (unwrap_or use_rag false); [|reflexivity].
    destruct H as [H|[[e H]|H]]; [discriminate H | rewrite H; reflexivity |
                                  rewrite H; reflexivity]. }
  split; [exact Hr|]. rewrite Hr.
  exact (turn_requests_system_message model_name message session_id include_history
           (Some (unwrap_or system_prompt rag_default_prompt)) seed max_tokens
           max_completion_tokens).
Qed.

(** X20: when RAG is on and retrieval returns a nonempty context, every
    request of the turn starts with the system prompt (or the RAG default
    prompt), two newlines, ["Relevant context from documents:"], a newline,
    the context, two newlines and the instruction to use it, followed by
    the tool catalogue. *)
Theorem rag_turn_with_context (model_name message : text)
    (session_id : option text) (include_history : option bool)
    (system_prompt : option text) (seed : option Z)
    (max_tokens max_completion_tokens : option N)
    (rag_limit : option N) (context : text) :
  rag_retrieval message (unwrap_or rag_limit 5%N) = Ok context ->
  context <> [] ->
  Forall (fun req => exists rest,
            req.(req_messages)
            = SystemMsg (unwrap_or system_prompt rag_default_prompt ++ [nl; nl]
                         ++ lit "Relevant context from documents:" ++ [nl] ++ context
                         ++ [nl; nl]
                         ++ lit "Use this context to answer the user's question when relevant. If the context doesn't contain relevant information, answer based on your general knowledge."
                         ++ tools_info) :: rest)
    (chat_with_rag_streaming call_mcp_tool create_stream load_session tools_info
       rag_retrieval model_name message session_id include_history system_prompt seed
       max_tokens max_completion_tokens (Some true) rag_limit).(requests).
Proof.
  intros H Hne. unfold chat_with_rag_streaming. cbn [unwrap_or]. rewrite H.
  pose proof (turn_requests_system_message model_name message session_id include_history
    (Some (enhanced_system_prompt system_prompt context)) seed max_tokens
    max_completion_tokens) as F.
  unfold system_message_of in F. cbn [unwrap_or] in F.
  unfold enhanced_system_prompt in F.
  destruct context as [|b context]; [congruence|]. cbn [negb] in F.
  rewrite <- !app_assoc in F. exact F.
Qed.

End Turn.

End RagProps.

(** * Concrete instances of the extra properties *)

Lemma generate_chat_title_long_witness :
  60 < List.length (trim demo_long_question)
  /\ is_char_boundary (trim demo_long_question) 60 = true
  /\ exists t, generate_chat_title demo_upper demo_long_question = Some t
               /\ ends_with (lit "...") t = true.
Proof.
  assert (H1 : 60 < List.length (trim demo_long_question))
    by (apply Nat.ltb_lt; vm_compute; reflexivity).
  assert (H2 : is_char_boundary (trim demo_long_question) 60 = true)
    by (vm_compute; reflexivity).
  split; [exact H1|]. split; [exact H2|].
  exact (generate_chat_title_long demo_upper demo_long_question H1 H2).
Defined.

Lemma generate_chat_title_no_punct_before_ellipsis_witness :
  generate_chat_title demo_upper demo_punct_question
    = Some (lit "Is there a way to list every file, folder, and hidden ite"
            ++ "m"%char :: lit "...")
  /\ is_title_punct "m"%char = false.
Proof.
  assert (H : generate_chat_title demo_upper demo_punct_question
    = Some (lit "Is there a way to list every file, folder, and hidden ite"
            ++ "m"%char :: lit "...")) by (vm_compute; reflexivity).
  split; [exact H|].
  exact (generate_chat_title_no_punct_before_ellipsis demo_upper demo_punct_question _ H
           _ _ eq_refl).
Defined.

Lemma missing_session_not_found_witness :
  Sessions.hm_get (lit "b") demo_storage.(Sessions.sessions) = None
  /\ Sessions.update_chat_session (Ok demo_storage) demo_save 0%Z (lit "b") None None
     = (None, Err (Sessions.not_found (lit "b"))).
Proof.
  assert (H : Sessions.hm_get (lit "b") demo_storage.(Sessions.sessions) = None)
    by reflexivity.
  split; [exact H|].
  exact (proj1 (SessionProps.missing_session_not_found demo_upper demo_save (lit "u") 0%Z
                  demo_storage (lit "b") (lit "user") (lit "x") None None None None H)).
Defined.

Lemma delete_chat_session_spec_witness :
  Sessions.hm_contains_key (lit "a") demo_storage.(Sessions.sessions) = true
  /\ exists st',
       Sessions.delete_chat_session (Ok demo_storage) demo_save (lit "a")
       = (Some st', Ok (lit "Chat session deleted: a"))
       /\ st'.(Sessions.active_session_id) = None.
Proof.
  assert (H : Sessions.hm_contains_key (lit "a") demo_storage.(Sessions.sessions) = true)
    by reflexivity.
  split; [exact H|].
  destruct (SessionProps.delete_chat_session_spec demo_save demo_storage (lit "a") H)
    as (st' & E & _ & _ & A & _ & _).
  exists st'. split; [exact E | exact (A eq_refl)].
Defined.

Lemma set_active_chat_session_spec_witness :
  Sessions.hm_contains_key (lit "a") demo_storage.(Sessions.sessions) = true
  /\ exists st',
       Sessions.set_active_chat_session (Ok demo_storage) demo_save (lit "a")
       = (Some st', Ok (lit "a"))
       /\ st'.(Sessions.active_session_id) = Some (lit "a").
Proof.
  assert (H : Sessions.hm_contains_key (lit "a") demo_storage.(Sessions.sessions) = true)
    by reflexivity.
  split; [exact H|].
  destruct (SessionProps.set_active_chat_session_spec demo_save demo_storage (lit "a") H)
    as (st' & E & _ & A).
  exists st'. split; [exact E | exact A].
Defined.

Lemma update_chat_session_spec_witness :
  Sessions.hm_get (lit "a") demo_storage.(Sessions.sessions) = Some demo_chat
  /\ exists st' s',
       Sessions.update_chat_session (Ok demo_storage) demo_save 5%Z (lit "a")
         (Some (lit "Renamed")) None = (Some st', Ok s')
       /\ s'.(Sessions.title) = lit "Renamed"
       /\ s'.(Sessions.messages) = demo_chat.(Sessions.messages).
Proof.
  assert (H : Sessions.hm_get (lit "a") demo_storage.(Sessions.sessions) = Some demo_chat)
    by reflexivity.
  split; [exact H|].
  destruct (SessionProps.update_chat_session_spec demo_save 5%Z demo_storage (lit "a")
              demo_chat (Some (lit "Renamed")) None H)
    as (st' & s' & E & _ & _ & _ & M & _ & T & _).
  exists st', s'. split; [exact E|]. split; [exact T | exact M].
Defined.

Lemma add_message_to_session_spec_witness :
  Sessions.hm_get (lit "a") demo_storage.(Sessions.sessions) = Some demo_chat
  /\ match Sessions.add_message_to_temporary_session demo_upper (lit "u") 7%Z demo_chat
             (lit "user") demo_long_question None None with
     | None =>
         Sessions.add_message_to_session demo_upper (Ok demo_storage) demo_save (lit "u") 7%Z
           (lit "a") (lit "user") demo_long_question None None = None
     | Some (s', msg) =>
         exists st',
           Sessions.add_message_to_session demo_upper (Ok demo_storage) demo_save (lit "u")
             7%Z (lit "a") (lit "user") demo_long_question None None
             = Some (Some st', match demo_save st' with Ok _ => Ok msg | Err e => Err e end)
           /\ Sessions.hm_get (lit "a") st'.(Sessions.sessions) = Some s'
           /\ (forall k, k <> lit "a" ->
               Sessions.hm_get k st'.(Sessions.sessions)
               = Sessions.hm_get k demo_storage.(Sessions.sessions))
           /\ st'.(Sessions.active_session_id) = demo_storage.(Sessions.active_session_id)
           /\ Sessions.get_session_messages (Ok st') (lit "a")
              = Ok (demo_chat.(Sessions.messages) ++ [msg])
           /\ Sessions.get_conversation_history (Ok st') (lit "a")
              = Ok (filter (fun m => text_eqb m.(Sessions.role) (lit "user")
                                     || text_eqb m.(Sessions.role) (lit "assistant"))
                      demo_chat.(Sessions.messages)
                    ++ if text_eqb (lit "user") (lit "user")
                          || text_eqb (lit "user") (lit "assistant")
                       then [msg] else [])
     end.
Proof.
  assert (H : Sessions.hm_get (lit "a") demo_storage.(Sessions.sessions) = Some demo_chat)
    by reflexivity.
  split; [exact H|].
  exact (SessionProps.add_message_to_session_spec demo_upper demo_save (lit "u") 7%Z
           demo_storage (lit "a") demo_chat (lit "user") demo_long_question None None H).
Defined.

Lemma demo_storage_ok : Sessions.storage_ok demo_storage.
Proof.
  split.
  - intros k s H. unfold Sessions.hm_get, demo_storage in H.
    cbn [Sessions.sessions List.find fst] in H.
    destruct (text_eqb (lit "a") k) eqn:E; cbn in H; [|discriminate H].
    injection H as <-. apply text_eqb_eq in E. exact E.
  - intros a A. injection A as <-. reflexivity.
Qed.

Lemma commands_keep_storage_ok_witness :
  Sessions.storage_ok demo_storage
  /\ forall r st',
     Sessions.delete_chat_session (Ok demo_storage) demo_save (lit "a") = (Some st', r) ->
     Sessions.storage_ok st'.
Proof.
  split; [exact demo_storage_ok|]. intros r st'.
  exact (proj1 (proj2 (proj2 (proj2
    (SessionProps.commands_keep_storage_ok demo_upper demo_save (lit "u") 0%Z demo_storage
       (lit "a") (lit "user") (lit "x") None None None None
       (Sessions.new_session (lit "u") 0%Z None) st' demo_storage_ok)))) r).
Defined.

Lemma saved_user_message_sent_once_witness :
  exists st' r,
    Sessions.hm_get (lit "a") demo_storage.(Sessions.sessions) = Some demo_chat
    /\ Sessions.add_message_to_session demo_upper (Ok demo_storage) demo_save (lit "u") 7%Z
         (lit "a") (lit "user") (lit "and now?") None None = Some (Some st', r)
    /\ build_messages (session_loader (Ok st')) (lit "sys") (lit "and now?") (Some (lit "a"))
         (Some true)
       = [SystemMsg (lit "sys")]
         ++ flat_map history_to_request
              (filter is_user_or_assistant
                 (map to_turn_message demo_chat.(Sessions.messages)))
         ++ [UserMsg (lit "and now?")].
Proof.
  assert (H : Sessions.hm_get (lit "a") demo_storage.(Sessions.sessions) = Some demo_chat)
    by reflexivity.
  destruct (Sessions.add_message_to_session demo_upper (Ok demo_storage) demo_save (lit "u")
              7%Z (lit "a") (lit "user") (lit "and now?") None None) as [[[st'|] r]|] eqn:E;
    [| vm_compute in E; discriminate E | vm_compute in E; discriminate E].
  exists st', r. split; [exact H|]. split; [reflexivity|].
  exact (HistoryProps.saved_user_message_sent_once demo_upper demo_save (lit "u") 7%Z
           demo_storage (lit "a") (lit "and now?") demo_chat None None st' r (lit "sys") H E).
Defined.

Lemma perform_rag_retrieval_spec_witness :
  demo_embed (lit "q") = Ok tt /\ demo_store = Ok tt
  /\ demo_search tt tt (usize_wrap (2 * 2)) = Ok [lit "alpha beta"; lit "gamma"]
  /\ (let run := perform_rag_retrieval demo_embed demo_store demo_search demo_rerank
                   demo_doc_title (fun c => c) demo_relevance (lit "q") 2 in
      let top := firstn (N.to_nat (N.min 3 2)) [lit "gamma"; lit "alpha beta"] in
      ([lit "alpha beta"; lit "gamma"] = [] -> run = Some (Ok [])) /\
      ([lit "alpha beta"; lit "gamma"] <> [] ->
       demo_rerank (lit "q") [lit "alpha beta"; lit "gamma"]
         = Ok [lit "gamma"; lit "alpha beta"] ->
       (run = None <->
        exists r, In r top /\ 500 < List.length r /\ is_char_boundary r 500 = false) /\
       (forall x, run = Some x ->
        exists entries,
          x = Ok (join [nl] entries) /\
          List.length entries
          = Nat.min (N.to_nat (N.min 3 2)) (List.length [lit "gamma"; lit "alpha beta"]) /\
          forall i r, nth_error top i = Some r ->
          exists c, truncate_content r 500 = Some c /\
            nth_error entries i
            = Some (lit "Source " ++ decimal (S i) ++ lit ": " ++ demo_doc_title r ++ [nl]
                    ++ lit "Content: " ++ c ++ [nl] ++ lit "Relevance Score: "
                    ++ demo_relevance r ++ [nl] ++ lit "---")))).
Proof.
  split; [reflexivity|]. split; [reflexivity|]. split; [reflexivity|].
  exact (RagProps.perform_rag_retrieval_spec demo_embed demo_store demo_search demo_rerank
           demo_doc_title (fun c => c) demo_relevance (lit "q") 2 tt tt
           [lit "alpha beta"; lit "gamma"] [lit "gamma"; lit "alpha beta"]
           eq_refl eq_refl eq_refl).
Defined.

Section ConcreteRagTurns.

(** The concrete runs parse with [demo_serde]. *)
#[local] Existing Instance demo_serde.

Lemma rag_turn_without_context_witness :
  (exists e, (fun (_ : text) (_ : N) => Err (lit "no index") : result text text)
               (lit "hi") (unwrap_or None 5%N) = Err e)
  /\ Forall (fun req => exists rest,
               req.(req_messages) = SystemMsg (rag_default_prompt ++ []) :: rest)
       (chat_with_rag_streaming demo_invoker (demo_stream [] []) demo_session []
          (fun _ _ => Err (lit "no index")) (lit "m") (lit "hi") None None None None None
          None (Some true) None).(requests).
Proof.
  assert (H : exists e, (fun (_ : text) (_ : N) => Err (lit "no index") : result text text)
               (lit "hi") (unwrap_or None 5%N) = Err e) by (eexists; reflexivity).
  split; [exact H|].
  exact (proj2 (RagProps.rag_turn_without_context demo_invoker (demo_stream [] [])
                  demo_session [] (fun _ _ => Err (lit "no index")) (lit "m") (lit "hi")
                  None None None None None None (Some true) None
                  (or_intror (or_introl H)))).
Defined.

Lemma rag_turn_with_context_witness :
  (fun (_ : text) (_ : N) => Ok (lit "ctx") : result text text) (lit "hi") (unwrap_or None 5%N)
    = Ok (lit "ctx")
  /\ lit "ctx" <> []
  /\ Forall (fun req => exists rest,
               req.(req_messages)
               = SystemMsg (unwrap_or None rag_default_prompt ++ [nl; nl]
                            ++ lit "Relevant context from documents:" ++ [nl] ++ lit "ctx"
                            ++ [nl; nl]
                            ++ lit "Use this context to answer the user's question when relevant. If the context doesn't contain relevant information, answer based on your general knowledge."
                            ++ []) :: rest)
       (chat_with_rag_streaming demo_invoker (demo_stream [] []) demo_session []
          (fun _ _ => Ok (lit "ctx")) (lit "m") (lit "hi") None None None None None None
          (Some true) None).(requests).
Proof.
  assert (H1 : (fun (_ : text) (_ : N) => Ok (lit "ctx") : result text text) (lit "hi")
                 (unwrap_or None 5%N) = Ok (lit "ctx")) by reflexivity.
  assert (H2 : lit "ctx" <> []) by discriminate.
  split; [exact H1|]. split; [exact H2|].
  exact (RagProps.rag_turn_with_context demo_invoker (demo_stream [] []) demo_session []
           (fun _ _ => Ok (lit "ctx")) (lit "m") (lit "hi") None None None None None None
           None (lit "ctx") H1 H2).
Defined.

End ConcreteRagTurns.
